(** * Pixel Runtime: surface, graphics pipeline and application loop

    A shallow embedding of the C++ sources of [pixel_runtime]
    ([surface.cpp], [color.h], [graphics.cpp], [app.cpp], [window.cpp],
    [input.cpp], [error_handling.h]) and the properties the design
    document states about them.

    Conventions:
    - a C++ [int] is a [Z] kept in the 32-bit signed range; arithmetic on
      it is written with its wrap-around ([CInt.to_int]);
    - [uint8_t], [uint32_t], [uint64_t], [size_t] are [Z] reduced modulo
      2^8, 2^32, 2^64, 2^64;
    - [float] is IEEE binary32, taken from [SpecFloat] at precision 24
      and maximal exponent 128;
    - a call that can fail returns an [outcome]: a failed [PXR_ASSERT]
      is [Fatal msg] (the message reaches the error sink and the process
      ends), a C++ exception is [Throws], and an operation the language
      leaves undefined is [Undefined]. *)

From Stdlib Require Import ZArith Lia Bool String List SpecFloat.
From stdpp Require Import base tactics option list.

Local Open Scope string_scope.
Local Open Scope list_scope.
Local Open Scope Z_scope.

(** ** Machine integers *)

Module CInt.

Definition INT_MIN : Z := - 2 ^ 31.
Definition INT_MAX : Z := 2 ^ 31 - 1.

Definition in_int (z : Z) : Prop := INT_MIN <= z <= INT_MAX.

(** Conversion to [int]: two's complement wrap-around. *)
Definition to_int (z : Z) : Z := (z + 2 ^ 31) mod 2 ^ 32 - 2 ^ 31.

Definition to_uint8 (z : Z) : Z := z mod 2 ^ 8.
Definition to_uint32 (z : Z) : Z := z mod 2 ^ 32.
Definition to_uint64 (z : Z) : Z := z mod 2 ^ 64.
(** [size_t] of the LP64 targets the project builds for. *)
Definition to_size_t (z : Z) : Z := z mod 2 ^ 64.

Definition add (a b : Z) : Z := to_int (a + b).
Definition mul (a b : Z) : Z := to_int (a * b).
(** [a / b] and [a % b] for a non-zero divisor: truncation toward zero. *)
Definition quot (a b : Z) : Z := to_int (Z.quot a b).
Definition rem (a b : Z) : Z := to_int (Z.rem a b).

End CInt.

(** ** Outcomes of fallible calls *)

Inductive exn : Set :=
| length_error.

Inductive undefined : Set :=
| DivisionByZero
| IndexOutOfRange
| NullDereference.

Inductive outcome (A : Type) : Type :=
| Ok (a : A)
| Fatal (msg : string)
| Throws (e : exn)
| Undefined (u : undefined).

Arguments Ok {A} a.
Arguments Fatal {A} msg.
Arguments Throws {A} e.
Arguments Undefined {A} u.

Definition bind {A B : Type} (m : outcome A) (k : A -> outcome B) : outcome B :=
  match m with
  | Ok a => k a
  | Fatal msg => Fatal msg
  | Throws e => Throws e
  | Undefined u => Undefined u
  end.

Notation "'let*' x := m 'in' k" := (bind m (fun x => k))
  (at level 10, x name, m at level 100, k at level 200).

(** [PXR_ASSERT(cond, msg)] of [error_handling.h]: both build modes hand
    [msg] to the error sink and end the process when [cond] is false. *)
Definition PXR_ASSERT (cond : bool) (msg : string) : outcome unit :=
  if cond then Ok tt else Fatal msg.

(** [for (int i = 0; i < n; ++i) body], threading the state [s]. *)
Fixpoint for_each {S : Type} (body : Z -> S -> outcome S) (range : list Z) (s : S)
  : outcome S :=
  match range with
  | [] => Ok s
  | i :: rest => let* s' := body i s in for_each body rest s'
  end.

Definition for_range {S : Type} (n : Z) (body : Z -> S -> outcome S) (s : S)
  : outcome S :=
  for_each body (seqZ 0 n) s.

(** ** std::vector<uint32_t> *)

Module Vector.

(** [max_size()] of a vector of 4-byte elements: PTRDIFF_MAX / 4. *)
Definition max_size : Z := (2 ^ 63 - 1) / 4.

(** [std::vector<uint32_t>(n, v)], with [n] already a [size_t]. *)
Definition fill (n : Z) (v : Z) : outcome (list Z) :=
  if max_size <? n then Throws length_error
  else Ok (replicate (Z.to_nat n) v).

(** [v[i]] read, the [int] index converted to [size_t]. *)
Definition get (v : list Z) (i : Z) : outcome Z :=
  match v !! Z.to_nat (CInt.to_size_t i) with
  | Some p => Ok p
  | None => Undefined IndexOutOfRange
  end.

(** [v[i] = p]. *)
Definition set (v : list Z) (i : Z) (p : Z) : outcome (list Z) :=
  if CInt.to_size_t i <? Z.of_nat (length v)
  then Ok (<[Z.to_nat (CInt.to_size_t i) := p]> v)
  else Undefined IndexOutOfRange.

End Vector.

(** ** color.h *)

Module Color.

(** [struct Color { uint32_t value; }], packed as 0xAARRGGBB. *)
Record t : Set := mk { value : Z }.

(** [Color(uint8_t red, uint8_t green, uint8_t blue, uint8_t alpha)]:
    every argument is converted to [uint8_t] on the way in.  The
    defaults (0, 0, 0, 255) are written out at the call sites. *)
Definition Color (red green blue alpha : Z) : t :=
  let red := CInt.to_uint8 red in
  let green := CInt.to_uint8 green in
  let blue := CInt.to_uint8 blue in
  let alpha := CInt.to_uint8 alpha in
  mk (Z.lor (Z.lor (Z.lor (Z.shiftl alpha 24) (Z.shiftl red 16))
                   (Z.shiftl green 8)) blue).

Definition r (c : t) : Z := Z.land (Z.shiftr (value c) 16) 255.
Definition g (c : t) : Z := Z.land (Z.shiftr (value c) 8) 255.
Definition b (c : t) : Z := Z.land (value c) 255.
Definition a (c : t) : Z := Z.land (Z.shiftr (value c) 24) 255.

Definition toUInt32 (c : t) : Z := value c.

(** [operator==]. *)
Definition eqb (c d : t) : bool := value c =? value d.

Definition Black : t := Color 0 0 0 255.
Definition Red : t := Color 255 0 0 255.
Definition Green : t := Color 0 255 0 255.
Definition Blue : t := Color 0 0 255 255.

End Color.

(** ** surface.cpp *)

Module Surface.

Record t : Set := mk { width : Z; height : Z; pixels : list Z }.

(** [Surface::Surface(int width, int height, Color backgroundColor)]:
    the member initialisers run first (so the buffer is allocated from
    the [int] product converted to [size_t]), the assertion of the
    constructor body after them. *)
Definition Surface (width height : Z) (backgroundColor : Color.t) : outcome t :=
  let* pixels := Vector.fill (CInt.to_size_t (CInt.mul width height))
                             (Color.toUInt32 backgroundColor) in
  let* _ := PXR_ASSERT ((0 <? width) && (0 <? height))
                   "Surface dimensions must be positive." in
  Ok (mk width height pixels).

Definition isInBounds (s : t) (x y : Z) : bool :=
  (0 <=? x) && (0 <=? y) && (x <? width s) && (y <? height s).

(** [std::ranges::fill(pixels, color.toUInt32())]. *)
Definition clear (s : t) (color : Color.t) : t :=
  mk (width s) (height s)
     (replicate (length (pixels s)) (Color.toUInt32 color)).

Definition index (s : t) (x y : Z) : Z :=
  CInt.add (CInt.mul y (width s)) x.

Definition setPixel (s : t) (x y : Z) (color : Color.t) : outcome t :=
  let* _ := PXR_ASSERT (isInBounds s x y) "setPixel() out of bounds." in
  let* pixels := Vector.set (pixels s) (index s x y) (Color.toUInt32 color) in
  Ok (mk (width s) (height s) pixels).

(** [return Color(pixels[y * width + x]);] -- the only constructor of
    [Color] takes four [uint8_t], so the 32-bit pixel is passed as
    [red] and the other three arguments take their defaults. *)
Definition getPixel (s : t) (x y : Z) : outcome Color.t :=
  let* _ := PXR_ASSERT (isInBounds s x y) "getPixel() out of bounds." in
  let* p := Vector.get (pixels s) (index s x y) in
  Ok (Color.Color p 0 0 255).

(** Body of the inner loop of [blitTo]. *)
Definition blitPixel (src : t) (dstX dstY : Z) (y x : Z) (target : t)
  : outcome t :=
  let tx := CInt.add dstX x in
  let ty := CInt.add dstY y in
  if isInBounds target tx ty then
    let* c := getPixel src x y in
    setPixel target tx ty c
  else Ok target.

(** [Surface::blitTo], the source and the target being two objects. *)
Definition blitTo (src target : t) (dstX dstY : Z) : outcome t :=
  for_range (height src)
    (fun y => for_range (width src) (blitPixel src dstX dstY y))
    target.

Definition getWidth (s : t) : Z := width s.
Definition getHeight (s : t) : Z := height s.

End Surface.

(** ** The OpenGL driver, as graphics.cpp sees it

    The driver is observed through the sequence of calls made to it.
    Object names come from a counter, so every generated name is fresh
    and non-zero.  What the driver answers to a status query or to a
    mapping request is an oracle over the calls made so far. *)

Module GL.

Inductive shader_type : Set := VERTEX_SHADER | FRAGMENT_SHADER.

Inductive call : Set :=
| GenTextures (name : Z)
| BindTexture (name : Z)
| TexImage2D (w h : Z)
| TexParameteri_MIN_FILTER_NEAREST
| TexParameteri_MAG_FILTER_NEAREST
| GenBuffers (names : list Z)
| BindBuffer_PIXEL_UNPACK (name : Z)
| BindBuffer_ARRAY (name : Z)
| BufferData_PIXEL_UNPACK (size : Z)
| BufferData_ARRAY_quad
| GenVertexArrays (name : Z)
| BindVertexArray (name : Z)
| EnableVertexAttribArray (index : Z)
| VertexAttribPointer (index : Z)
| CreateShader (type : shader_type) (name : Z)
| CompileShader (name : Z)
| CreateProgram (name : Z)
| AttachShader (program shader : Z)
| LinkProgram (program : Z)
| DeleteShader (name : Z)
| MapBuffer_PIXEL_UNPACK
| Memcpy (bytes : Z) (data : list Z)
| UnmapBuffer_PIXEL_UNPACK
| TexSubImage2D (w h : Z)
| UseProgram (name : Z)
| DrawArrays_TRIANGLE_FAN (first count : Z)
| DeleteTextures (name : Z)
| DeleteBuffers (names : list Z)
| DeleteVertexArrays (name : Z)
| DeleteProgram (name : Z)
| SwapBuffers.

Record driver : Type := mkDriver {
  compile_status : list call -> bool;
  link_status : list call -> bool;
  map_buffer : list call -> bool
}.

Record state : Type := mk { next_name : Z; trace : list call }.

Definition emit (cs : list call) (gl : state) : state :=
  mk (next_name gl) (trace gl ++ cs).

(** A fresh object name. *)
Definition gen (gl : state) : Z * state :=
  (next_name gl, mk (next_name gl + 1) (trace gl)).

(** The calls that release one of the pipeline's GPU resources. *)
Definition is_release (c : call) : bool :=
  match c with
  | DeleteTextures _ | DeleteBuffers _ | DeleteVertexArrays _
  | DeleteProgram _ => true
  | _ => false
  end.

(** The calls that allocate one of the pipeline's GPU resources. *)
Definition is_allocation (c : call) : bool :=
  match c with
  | GenTextures _ | GenBuffers _ | GenVertexArrays _ | CreateProgram _ => true
  | _ => false
  end.

End GL.

(** ** graphics.cpp *)

Module Graphics.

Record t : Set := mk {
  texture : Z;
  pbo0 : Z;
  pbo1 : Z;
  vao : Z;
  vbo : Z;
  shaderProgram : Z;
  currentPBO : Z;
  width : Z;
  height : Z
}.

(** [Graphics::Graphics() = default], with the member initialisers of
    graphics.h. *)
Definition Graphics : t := mk 0 0 0 0 0 0 0 0 0.

(** [pbo[i]] on the two-element array. *)
Definition pbo (g : t) (i : Z) : outcome Z :=
  if i =? 0 then Ok (pbo0 g)
  else if i =? 1 then Ok (pbo1 g)
  else Undefined IndexOutOfRange.

Definition createTexture (g : t) (w h : Z) (gl : GL.state) : t * GL.state :=
  let (name, gl) := GL.gen gl in
  (mk name (pbo0 g) (pbo1 g) (vao g) (vbo g) (shaderProgram g)
      (currentPBO g) (width g) (height g),
   GL.emit [GL.GenTextures name; GL.BindTexture name; GL.TexImage2D w h;
            GL.TexParameteri_MIN_FILTER_NEAREST;
            GL.TexParameteri_MAG_FILTER_NEAREST; GL.BindTexture 0] gl).

Definition createPBOs (g : t) (gl : GL.state) : t * GL.state :=
  let (n0, gl) := GL.gen gl in
  let (n1, gl) := GL.gen gl in
  let size := CInt.mul (CInt.mul (width g) (height g)) 4 in
  (mk (texture g) n0 n1 (vao g) (vbo g) (shaderProgram g)
      (currentPBO g) (width g) (height g),
   GL.emit [GL.GenBuffers [n0; n1];
            GL.BindBuffer_PIXEL_UNPACK n0; GL.BufferData_PIXEL_UNPACK size;
            GL.BindBuffer_PIXEL_UNPACK n1; GL.BufferData_PIXEL_UNPACK size;
            GL.BindBuffer_PIXEL_UNPACK 0] gl).

Definition createQuad (g : t) (gl : GL.state) : t * GL.state :=
  let (a, gl) := GL.gen gl in
  let (b, gl) := GL.gen gl in
  (mk (texture g) (pbo0 g) (pbo1 g) a b (shaderProgram g)
      (currentPBO g) (width g) (height g),
   GL.emit [GL.GenVertexArrays a; GL.GenBuffers [b];
            GL.BindVertexArray a; GL.BindBuffer_ARRAY b;
            GL.BufferData_ARRAY_quad;
            GL.EnableVertexAttribArray 0; GL.VertexAttribPointer 0;
            GL.EnableVertexAttribArray 1; GL.VertexAttribPointer 1;
            GL.BindVertexArray 0] gl).

Definition compileShader (drv : GL.driver) (type : GL.shader_type)
    (gl : GL.state) : outcome (Z * GL.state) :=
  let (shader, gl) := GL.gen gl in
  let gl := GL.emit [GL.CreateShader type shader; GL.CompileShader shader] gl in
  let* _ := PXR_ASSERT (GL.compile_status drv (GL.trace gl))
                       "Shader compilation failed." in
  Ok (shader, gl).

Definition createShaderProgram (drv : GL.driver) (gl : GL.state)
  : outcome (Z * GL.state) :=
  let* vertex := compileShader drv GL.VERTEX_SHADER gl in
  let* fragment := compileShader drv GL.FRAGMENT_SHADER (snd vertex) in
  let (program, gl) := GL.gen (snd fragment) in
  let gl := GL.emit [GL.CreateProgram program;
                     GL.AttachShader program (fst vertex);
                     GL.AttachShader program (fst fragment);
                     GL.LinkProgram program] gl in
  let* _ := PXR_ASSERT (GL.link_status drv (GL.trace gl))
                       "Shader linking failed." in
  Ok (program,
      GL.emit [GL.DeleteShader (fst vertex); GL.DeleteShader (fst fragment)] gl).

Definition createShaders (drv : GL.driver) (g : t) (gl : GL.state)
  : outcome (t * GL.state) :=
  let* r := createShaderProgram drv gl in
  Ok (mk (texture g) (pbo0 g) (pbo1 g) (vao g) (vbo g) (fst r)
         (currentPBO g) (width g) (height g), snd r).

Definition initialize (drv : GL.driver) (g : t) (surface : Surface.t)
    (gl : GL.state) : outcome (t * GL.state) :=
  let g := mk (texture g) (pbo0 g) (pbo1 g) (vao g) (vbo g) (shaderProgram g)
              (currentPBO g)
              (Surface.getWidth surface) (Surface.getHeight surface) in
  let (g, gl) := createTexture g (width g) (height g) gl in
  let (g, gl) := createPBOs g gl in
  let (g, gl) := createQuad g gl in
  createShaders drv g gl.

Definition upload (drv : GL.driver) (g : t) (surface : Surface.t)
    (gl : GL.state) : outcome (t * GL.state) :=
  let* _ := PXR_ASSERT ((Surface.getWidth surface =? width g)
                        && (Surface.getHeight surface =? height g))
                       "Surface size mismatch." in
  let g := mk (texture g) (pbo0 g) (pbo1 g) (vao g) (vbo g) (shaderProgram g)
              (CInt.rem (CInt.add (currentPBO g) 1) 2)
              (width g) (height g) in
  let* buffer := pbo g (currentPBO g) in
  let gl := GL.emit [GL.BindBuffer_PIXEL_UNPACK buffer;
                     GL.MapBuffer_PIXEL_UNPACK] gl in
  let* _ := PXR_ASSERT (GL.map_buffer drv (GL.trace gl))
                       "PBO mapping failed." in
  Ok (g,
      GL.emit [GL.Memcpy (CInt.mul (CInt.mul (width g) (height g)) 4)
                         (Surface.pixels surface);
               GL.UnmapBuffer_PIXEL_UNPACK;
               GL.BindTexture (texture g);
               GL.TexSubImage2D (width g) (height g);
               GL.BindBuffer_PIXEL_UNPACK 0] gl).

(** [render(int pixelSize)]: the argument is unused. *)
Definition render (g : t) (pixelSize : Z) (gl : GL.state) : GL.state :=
  GL.emit [GL.UseProgram (shaderProgram g); GL.BindVertexArray (vao g);
           GL.BindTexture (texture g); GL.DrawArrays_TRIANGLE_FAN 0 4;
           GL.BindVertexArray 0; GL.UseProgram 0] gl.

(** The calls [destroy] makes, one per live handle. *)
Definition destroy_calls (g : t) : list GL.call :=
  (if texture g =? 0 then [] else [GL.DeleteTextures (texture g)])
  ++ (if pbo0 g =? 0 then [] else [GL.DeleteBuffers [pbo0 g; pbo1 g]])
  ++ (if vao g =? 0 then [] else [GL.DeleteVertexArrays (vao g)])
  ++ (if vbo g =? 0 then [] else [GL.DeleteBuffers [vbo g]])
  ++ (if shaderProgram g =? 0 then [] else [GL.DeleteProgram (shaderProgram g)]).

Definition destroy (g : t) (gl : GL.state) : t * GL.state :=
  (mk 0 0 0 0 0 0 (currentPBO g) (width g) (height g),
   GL.emit (destroy_calls g) gl).

Definition resize (drv : GL.driver) (g : t) (surface : Surface.t)
    (gl : GL.state) : outcome (t * GL.state) :=
  if (Surface.getWidth surface =? width g)
     && (Surface.getHeight surface =? height g)
  then Ok (g, gl)
  else
    let (g, gl) := destroy g gl in
    let g := mk (texture g) (pbo0 g) (pbo1 g) (vao g) (vbo g)
                (shaderProgram g) (currentPBO g)
                (Surface.getWidth surface) (Surface.getHeight surface) in
    initialize drv g surface gl.

End Graphics.

(** ** IEEE binary32, the [float] of app.cpp *)

Module Float.

Definition prec : Z := 24.
Definition emax : Z := 128.

Definition t : Set := spec_float.

Definition zero : t := S754_zero false.
(** [1.0f] = 2^23 * 2^-23. *)
Definition one : t := S754_finite false 8388608 (-23).
(** [0.016f], the nearest binary32: 8589935 * 2^-29. *)
Definition f0_016 : t := S754_finite false 8589935 (-29).

Definition add (x y : t) : t := SFadd prec emax x y.
Definition div (x y : t) : t := SFdiv prec emax x y.
(** [x >= y]: false as soon as one side is a NaN. *)
Definition ge (x y : t) : bool := SFleb y x.
(** [static_cast<float>(n)] for an integer [n], rounding to nearest even. *)
Definition of_int (n : Z) : t := binary_normalize prec emax n 0 false.

End Float.

(** ** window.cpp and input.cpp

    GLFW is outside the program; what it answers is given by the
    [platform] record. *)

Record platform : Type := mkPlatform {
  glfwInit : bool;
  glfwCreateWindow : Z -> Z -> string -> bool;
  gladLoadGLLoader : bool;
  gl_driver : GL.driver
}.

Module Window.

Record t : Set := mk {
  handle : bool;
  width : Z;
  height : Z;
  title : string;
  vsyncEnabled : bool
}.

(** [Window::Window() = default]. *)
Definition Window : t := mk false 640 480 "Pixel Runtime" true.

Definition create (p : platform) (win : t) (w h : Z) (ttl : string)
    (vsync : bool) : outcome t :=
  let* _ := (if glfwInit p then Ok tt
             else PXR_ASSERT false "Failed to initialize GLFW") in
  let handle := glfwCreateWindow p w h ttl in
  let* _ := PXR_ASSERT handle "Failed to create GLFW window" in
  let* _ := (if gladLoadGLLoader p then Ok tt
             else PXR_ASSERT false "Failed to initialize GLAD") in
  Ok (mk handle w h ttl vsync).

(** [Window::destroy]: the handle is released and reset. *)
Definition destroy (win : t) : t :=
  mk false (width win) (height win) (title win) (vsyncEnabled win).

Definition getWidth (win : t) : Z := width win.
Definition getHeight (win : t) : Z := height win.
Definition getTitle (win : t) : string := title win.
Definition getHandle (win : t) : bool := handle win.

End Window.

Module Input.

Record t : Set := mk { window : bool; mouseX : Z; mouseY : Z }.

(** Default member initialisers of input.h. *)
Definition Input : t := mk false 0 0.

Definition initialize (i : t) (handle : bool) : outcome t :=
  let* _ := PXR_ASSERT handle "GLFW window is null" in
  Ok (mk handle (mouseX i) (mouseY i)).

(** [poll]: the cursor position GLFW reports, already cast to [int]. *)
Definition poll (i : t) (x y : Z) : t := mk (window i) x y.

Definition getMouseWindowX (i : t) : Z := mouseX i.
Definition getMouseWindowY (i : t) : Z := mouseY i.

End Input.

(** ** app.cpp *)

Module App.

Record t : Type := mk {
  width : Z;
  height : Z;
  pixelSize : Z;
  backgroundColor : Color.t;
  title : string;
  vsyncEnabled : bool;
  inSetupPhase : bool;
  shouldExit : bool;
  frameCount : Z;
  deltaTime : Float.t;
  fps : Float.t;
  window : option Window.t;
  graphics : option Graphics.t;
  surface : option Surface.t;
  input : option Input.t
}.

(** [App::App() = default], with the member initialisers of app.h. *)
Definition App : t :=
  mk 400 400 1 Color.Black "Pixel Runtime" true false false
     0 Float.f0_016 Float.zero None None None None.

Definition with_size (w h : Z) (a : t) : t :=
  mk w h (pixelSize a) (backgroundColor a) (title a) (vsyncEnabled a)
     (inSetupPhase a) (shouldExit a) (frameCount a) (deltaTime a) (fps a)
     (window a) (graphics a) (surface a) (input a).
Definition with_pixelSize (n : Z) (a : t) : t :=
  mk (width a) (height a) n (backgroundColor a) (title a) (vsyncEnabled a)
     (inSetupPhase a) (shouldExit a) (frameCount a) (deltaTime a) (fps a)
     (window a) (graphics a) (surface a) (input a).
Definition with_backgroundColor (c : Color.t) (a : t) : t :=
  mk (width a) (height a) (pixelSize a) c (title a) (vsyncEnabled a)
     (inSetupPhase a) (shouldExit a) (frameCount a) (deltaTime a) (fps a)
     (window a) (graphics a) (surface a) (input a).
Definition with_title (s : string) (a : t) : t :=
  mk (width a) (height a) (pixelSize a) (backgroundColor a) s (vsyncEnabled a)
     (inSetupPhase a) (shouldExit a) (frameCount a) (deltaTime a) (fps a)
     (window a) (graphics a) (surface a) (input a).
Definition with_vsyncEnabled (b : bool) (a : t) : t :=
  mk (width a) (height a) (pixelSize a) (backgroundColor a) (title a) b
     (inSetupPhase a) (shouldExit a) (frameCount a) (deltaTime a) (fps a)
     (window a) (graphics a) (surface a) (input a).
Definition with_inSetupPhase (b : bool) (a : t) : t :=
  mk (width a) (height a) (pixelSize a) (backgroundColor a) (title a)
     (vsyncEnabled a) b (shouldExit a) (frameCount a) (deltaTime a) (fps a)
     (window a) (graphics a) (surface a) (input a).
Definition with_shouldExit (b : bool) (a : t) : t :=
  mk (width a) (height a) (pixelSize a) (backgroundColor a) (title a)
     (vsyncEnabled a) (inSetupPhase a) b (frameCount a) (deltaTime a) (fps a)
     (window a) (graphics a) (surface a) (input a).
Definition with_frameCount (n : Z) (a : t) : t :=
  mk (width a) (height a) (pixelSize a) (backgroundColor a) (title a)
     (vsyncEnabled a) (inSetupPhase a) (shouldExit a) n (deltaTime a) (fps a)
     (window a) (graphics a) (surface a) (input a).
Definition with_deltaTime (d : Float.t) (a : t) : t :=
  mk (width a) (height a) (pixelSize a) (backgroundColor a) (title a)
     (vsyncEnabled a) (inSetupPhase a) (shouldExit a) (frameCount a) d (fps a)
     (window a) (graphics a) (surface a) (input a).
Definition with_fps (f : Float.t) (a : t) : t :=
  mk (width a) (height a) (pixelSize a) (backgroundColor a) (title a)
     (vsyncEnabled a) (inSetupPhase a) (shouldExit a) (frameCount a)
     (deltaTime a) f (window a) (graphics a) (surface a) (input a).
Definition with_window (w : option Window.t) (a : t) : t :=
  mk (width a) (height a) (pixelSize a) (backgroundColor a) (title a)
     (vsyncEnabled a) (inSetupPhase a) (shouldExit a) (frameCount a)
     (deltaTime a) (fps a) w (graphics a) (surface a) (input a).
Definition with_graphics (g : option Graphics.t) (a : t) : t :=
  mk (width a) (height a) (pixelSize a) (backgroundColor a) (title a)
     (vsyncEnabled a) (inSetupPhase a) (shouldExit a) (frameCount a)
     (deltaTime a) (fps a) (window a) g (surface a) (input a).
Definition with_surface (s : option Surface.t) (a : t) : t :=
  mk (width a) (height a) (pixelSize a) (backgroundColor a) (title a)
     (vsyncEnabled a) (inSetupPhase a) (shouldExit a) (frameCount a)
     (deltaTime a) (fps a) (window a) (graphics a) s (input a).
Definition with_input (i : option Input.t) (a : t) : t :=
  mk (width a) (height a) (pixelSize a) (backgroundColor a) (title a)
     (vsyncEnabled a) (inSetupPhase a) (shouldExit a) (frameCount a)
     (deltaTime a) (fps a) (window a) (graphics a) (surface a) i.

(** *** Setup-time configuration *)

Definition enforceSetupCall (a : t) (funcName : string) : outcome unit :=
  PXR_ASSERT (inSetupPhase a)
             (funcName ++ " must be called inside setup()")%string.

Definition setVSync (a : t) (enabled : bool) : outcome t :=
  let* _ := enforceSetupCall a "setVSync" in
  Ok (with_vsyncEnabled enabled a).

Definition setSize (a : t) (w h : Z) : outcome t :=
  let* _ := enforceSetupCall a "setSize" in
  Ok (with_size w h a).

Definition setPixelSize (a : t) (size : Z) : outcome t :=
  let* _ := enforceSetupCall a "setPixelSize" in
  Ok (with_pixelSize size a).

Definition setTitle (a : t) (s : string) : outcome t :=
  let* _ := enforceSetupCall a "setTitle" in
  Ok (with_title s a).

(** *** App control *)

Definition exit (a : t) : t := with_shouldExit true a.

Definition isInSetupPhase (a : t) : bool := inSetupPhase a.

Definition getWidth (a : t) : Z :=
  match surface a with Some s => Surface.getWidth s | None => width a end.
Definition getHeight (a : t) : Z :=
  match surface a with Some s => Surface.getHeight s | None => height a end.
Definition getPixelSize (a : t) : Z := pixelSize a.

(** *** Drawing *)

Definition background (a : t) (color : Color.t) : t :=
  let a := with_backgroundColor color a in
  match surface a with
  | Some s => with_surface (Some (Surface.clear s (backgroundColor a))) a
  | None => a
  end.

Definition drawPixel (a : t) (x y : Z) (color : Color.t) : outcome t :=
  match surface a with
  | Some s =>
      let* s' := Surface.setPixel s x y color in
      Ok (with_surface (Some s') a)
  | None => Ok a
  end.

Definition drawSurface (a : t) (src : Surface.t) (x y : Z) : outcome t :=
  match surface a with
  | Some s =>
      let* s' := Surface.blitTo src s x y in
      Ok (with_surface (Some s') a)
  | None => Ok a
  end.

(** *** Input *)

(** [n / d] on [int]: undefined for a zero divisor. *)
Definition int_div (n d : Z) : outcome Z :=
  if d =? 0 then Undefined DivisionByZero else Ok (CInt.quot n d).

Definition getMouseX (a : t) : outcome Z :=
  match input a with
  | Some i => int_div (Input.getMouseWindowX i) (pixelSize a)
  | None => Ok 0
  end.

Definition getMouseY (a : t) : outcome Z :=
  match input a with
  | Some i => int_div (Input.getMouseWindowY i) (pixelSize a)
  | None => Ok 0
  end.

Definition getMouseWindowX (a : t) : Z :=
  match input a with Some i => Input.getMouseWindowX i | None => 0 end.
Definition getMouseWindowY (a : t) : Z :=
  match input a with Some i => Input.getMouseWindowY i | None => 0 end.

(** *** Timing *)

Definition getFrameCount (a : t) : Z := frameCount a.
Definition getFps (a : t) : Float.t := fps a.
Definition getDeltaTime (a : t) : Float.t := deltaTime a.

(** *** The user's callbacks

    The application subclass overrides [setup] and [update].  All it
    can do to the [App] it extends is call the member functions above,
    so a callback is the list of calls it makes, chosen from what it
    can read of the application. *)

Inductive call : Type :=
| CallSetVSync (enabled : bool)
| CallSetSize (w h : Z)
| CallSetPixelSize (size : Z)
| CallSetTitle (s : string)
| CallBackground (color : Color.t)
| CallDrawPixel (x y : Z) (color : Color.t)
| CallDrawSurface (src : Surface.t) (x y : Z)
| CallExit
| CallGetMouseX
| CallGetMouseY.

Definition exec (c : call) (a : t) : outcome t :=
  match c with
  | CallSetVSync enabled => setVSync a enabled
  | CallSetSize w h => setSize a w h
  | CallSetPixelSize size => setPixelSize a size
  | CallSetTitle s => setTitle a s
  | CallBackground color => Ok (background a color)
  | CallDrawPixel x y color => drawPixel a x y color
  | CallDrawSurface src x y => drawSurface a src x y
  | CallExit => Ok (exit a)
  | CallGetMouseX => let* _ := getMouseX a in Ok a
  | CallGetMouseY => let* _ := getMouseY a in Ok a
  end.

Fixpoint script (cs : list call) (a : t) : outcome t :=
  match cs with
  | [] => Ok a
  | c :: rest => let* a' := exec c a in script rest a'
  end.

Record callbacks : Type := mkCallbacks {
  setup : t -> list call;
  update : t -> list call
}.

Definition is_setter (c : call) : bool :=
  match c with
  | CallSetVSync _ | CallSetSize _ _ | CallSetPixelSize _ | CallSetTitle _ => true
  | _ => false
  end.

(** *** [App::run] *)

(** The application together with the locals of [run] and the driver. *)
Record running : Type := mkRunning {
  app : t;
  gl : GL.state;
  fpsTimer : Float.t;
  fpsCounter : Z
}.

(** What the outside world supplies to one iteration: the answer of
    [window->shouldClose()] at the loop head, the clock difference
    as a [float], and the cursor position cast to [int]. *)
Record frame_input : Type := mkFrameInput {
  close : bool;
  delta : Float.t;
  cursorX : Z;
  cursorY : Z
}.

Definition deref {A : Type} (p : option A) : outcome A :=
  match p with Some x => Ok x | None => Undefined NullDereference end.

(** [run] up to the loop: the setup phase, then the construction of
    the window, the input, the graphics and the surface. *)
Definition start (p : platform) (cb : callbacks) (a : t) (gl : GL.state)
  : outcome running :=
  let fpsTimer := Float.zero in
  let fpsCounter := 0 in
  let a := with_inSetupPhase true a in
  let* a := script (setup cb a) a in
  let a := with_inSetupPhase false a in
  let a := with_window (Some Window.Window) a in
  let a := with_input (Some Input.Input) a in
  let a := with_graphics (Some Graphics.Graphics) a in
  let* s := Surface.Surface (width a) (height a) (backgroundColor a) in
  let a := with_surface (Some s) a in
  let* w := Window.create p Window.Window
              (CInt.mul (Surface.getWidth s) (pixelSize a))
              (CInt.mul (Surface.getHeight s) (pixelSize a))
              (title a) (vsyncEnabled a) in
  let a := with_window (Some w) a in
  let* i := Input.initialize Input.Input (Window.getHandle w) in
  let a := with_input (Some i) a in
  let* r := Graphics.initialize (gl_driver p) Graphics.Graphics s gl in
  let a := with_graphics (Some (fst r)) a in
  Ok (mkRunning a (snd r) fpsTimer fpsCounter).

(** One iteration of the [while] loop of [run]. *)
Definition frame (p : platform) (cb : callbacks) (inp : frame_input)
    (st : running) : outcome running :=
  let a := with_deltaTime (delta inp) (app st) in
  let* i := deref (input a) in
  let a := with_input (Some (Input.poll i (cursorX inp) (cursorY inp))) a in
  let* a := script (update cb a) a in
  let* g := deref (graphics a) in
  let* s := deref (surface a) in
  let* r := Graphics.upload (gl_driver p) g s (gl st) in
  let gl := Graphics.render (fst r) (pixelSize a) (snd r) in
  let gl := GL.emit [GL.SwapBuffers] gl in
  let a := with_graphics (Some (fst r)) a in
  let a := with_frameCount (CInt.to_uint64 (frameCount a + 1)) a in
  let fpsCounter := CInt.add (fpsCounter st) 1 in
  let fpsTimer := Float.add (fpsTimer st) (deltaTime a) in
  if Float.ge fpsTimer Float.one then
    let a := with_fps (Float.div (Float.of_int fpsCounter) fpsTimer) a in
    Ok (mkRunning a gl Float.zero 0)
  else
    Ok (mkRunning a gl fpsTimer fpsCounter).

(** [while (!shouldExit && !window->shouldClose())], over the
    iterations the given inputs allow. *)
Fixpoint loop (p : platform) (cb : callbacks) (inputs : list frame_input)
    (st : running) : outcome running :=
  match inputs with
  | [] => Ok st
  | inp :: rest =>
      if negb (shouldExit (app st)) && negb (close inp) then
        let* st' := frame p cb inp st in
        loop p cb rest st'
      else Ok st
  end.

(** [App::destroy]: the optional cleanup hook, empty by default. *)
Definition destroy (a : t) : t := a.

(** [run] from its first statement to the exit of the loop. *)
Definition running_after (p : platform) (cb : callbacks)
    (inputs : list frame_input) (a : t) (gl : GL.state) : outcome running :=
  let* st := start p cb a gl in
  loop p cb inputs st.

Definition run (p : platform) (cb : callbacks) (inputs : list frame_input)
    (a : t) (gl : GL.state) : outcome running :=
  let* st := running_after p cb inputs a gl in
  let a := destroy (app st) in
  let* w := deref (window a) in
  let a := with_window (Some (Window.destroy w)) a in
  Ok (mkRunning a (App.gl st) (fpsTimer st) (fpsCounter st)).

End App.

(** ** surface.cpp and app.cpp: the remaining member functions *)

Module SurfaceMove.

(** [Surface::Surface(Surface &&other)]: the new surface takes the
    dimensions and the buffer; [other] is left with width 0, height 0
    and the empty buffer a moved-from vector has.  The result is the
    pair (new surface, [other] afterwards). *)
Definition move (other : Surface.t) : Surface.t * Surface.t :=
  (Surface.mk (Surface.width other) (Surface.height other)
              (Surface.pixels other),
   Surface.mk 0 0 []).

End SurfaceMove.

Module AppInfo.

(** [window->isVSyncEnabled()], the window pointer not being checked. *)
Definition isVSyncEnabled (a : App.t) : outcome bool :=
  let* w := App.deref (App.window a) in
  Ok (Window.vsyncEnabled w).

(** [!shouldExit && !window->shouldClose()]: the window is consulted
    only when no exit was requested; [closing] is what GLFW answers. *)
Definition isRunning (a : App.t) (closing : bool) : outcome bool :=
  if negb (App.shouldExit a) then
    let* _ := App.deref (App.window a) in
    Ok (negb closing)
  else Ok false.

Definition getWindowWidth (a : App.t) : Z :=
  match App.window a with
  | Some w => Window.getWidth w
  | None => CInt.mul (App.width a) (App.pixelSize a)
  end.

Definition getWindowHeight (a : App.t) : Z :=
  match App.window a with
  | Some w => Window.getHeight w
  | None => CInt.mul (App.height a) (App.pixelSize a)
  end.

Definition getTitle (a : App.t) : string :=
  match App.window a with
  | Some w => Window.getTitle w
  | None => App.title a
  end.

End AppInfo.

(** ** math.h: the integer and sign utilities *)

Module Math.

Definition sub (a b : Z) : Z := CInt.to_int (a - b).

(** [std::abs(int)]. *)
Definition abs (a : Z) : Z := CInt.to_int (Z.abs a).

(** [a % b] on [int]: undefined for a zero divisor. *)
Definition int_rem (a b : Z) : outcome Z :=
  if b =? 0 then Undefined DivisionByZero else Ok (CInt.rem a b).

(** [int pingpong(int t, int min, int max)]. *)
Definition pingpong (t min max : Z) : outcome Z :=
  let range := sub max min in
  let* mod_ := int_rem t (CInt.mul 2 range) in
  Ok (CInt.add min (sub range (abs (sub mod_ range)))).

(** [float signOrZero(float v)]: the difference of two comparisons,
    converted to [float]. *)
Definition signOrZero (v : Float.t) : Float.t :=
  Float.of_int (Z.b2z (SFltb Float.zero v) - Z.b2z (SFltb v Float.zero)).

(** [uint32_t pseudoRandom(int x, int y, uint64_t t)]: all arithmetic is
    on [uint64_t]. *)
Definition pseudoRandom (x y t : Z) : Z :=
  let HASH_X := 374761393 in
  let HASH_Y := 668265263 in
  let HASH_T := 14466617 in
  let HASH_MUL := 1274126177 in
  let hash := CInt.to_uint64
                (CInt.to_uint64 (CInt.to_uint64 x * HASH_X)
                 + CInt.to_uint64 (CInt.to_uint64 y * HASH_Y)
                 + CInt.to_uint64 (t * HASH_T)) in
  let hash := CInt.to_uint64 (Z.lxor hash (Z.shiftr hash 13) * HASH_MUL) in
  CInt.to_uint32 (Z.lxor hash (Z.shiftr hash 16)).

End Math.

(** ** The example applications *)

Module PixelPaint.


End PixelPaint.

Module PixelNoise.

(** The colour [update] gives pixel [(x, y)] in frame [frame]. *)
Definition noise (x y frame : Z) : Color.t :=
  let hash := Math.pseudoRandom x y frame in
  let r := Z.land hash 255 in
  let g := Z.land (Z.shiftr hash 8) 255 in
  let b := Z.land (Z.shiftr hash 16) 255 in
  Color.Color r g b 255.

(** [update] of pixel_noise.cpp, without its console output. *)
Definition update (a : App.t) : outcome App.t :=
  let w := App.getWidth a in
  let h := App.getHeight a in
  let frame := App.getFrameCount a in
  for_range h
    (fun y => for_range w (fun x a => App.drawPixel a x y (noise x y frame)))
    a.

End PixelNoise.

Module PixelSquare.

(** The [while (true)] loop of [drawLine]; [fuel] bounds the number of
    iterations, and [None] is returned when it runs out. *)
Fixpoint drawLine_loop (fuel : nat) (a : App.t)
    (x y err x1 y1 dx dy sx sy : Z) (color : Color.t)
  : outcome (option App.t) :=
  match fuel with
  | O => Ok None
  | S fuel' =>
      let* a := App.drawPixel a x y color in
      if (x =? x1) && (y =? y1) then Ok (Some a)
      else
        let e2 := CInt.mul 2 err in
        let step_x := CInt.to_int (- dy) <? e2 in
        let err := if step_x then Math.sub err dy else err in
        let x := if step_x then CInt.add x sx else x in
        let step_y := e2 <? dx in
        let err := if step_y then CInt.add err dx else err in
        let y := if step_y then CInt.add y sy else y in
        drawLine_loop fuel' a x y err x1 y1 dx dy sx sy color
  end.

(** [drawLine(x0, y0, x1, y1, r, g, b)] of the rotating-square example:
    Bresenham's line, drawn through [App::drawPixel]. *)
Definition drawLine (fuel : nat) (a : App.t) (x0 y0 x1 y1 r g b : Z)
  : outcome (option App.t) :=
  let x := x0 in
  let y := y0 in
  let dx := Math.abs (Math.sub x1 x0) in
  let dy := Math.abs (Math.sub y1 y0) in
  let sx := if x0 <? x1 then 1 else -1 in
  let sy := if y0 <? y1 then 1 else -1 in
  let err := Math.sub dx dy in
  drawLine_loop fuel a x y err x1 y1 dx dy sx sy (Color.Color r g b 255).

End PixelSquare.

(** * Vocabulary of the properties *)

(** The fields no member function callable from a callback writes. *)
Definition same_private (a a' : App.t) : Prop :=
  App.inSetupPhase a' = App.inSetupPhase a
  /\ App.fps a' = App.fps a
  /\ App.deltaTime a' = App.deltaTime a
  /\ App.frameCount a' = App.frameCount a
  /\ App.input a' = App.input a
  /\ App.graphics a' = App.graphics a
  /\ App.window a' = App.window a
  /\ (App.surface a = None -> App.surface a' = None).


(** The value a setter stores. *)
Definition stored (c : App.call) (a : App.t) : App.t :=
  match c with
  | App.CallSetVSync enabled => App.with_vsyncEnabled enabled a
  | App.CallSetSize w h => App.with_size w h a
  | App.CallSetPixelSize size => App.with_pixelSize size a
  | App.CallSetTitle s => App.with_title s a
  | _ => a
  end.

(** ** Concrete inputs used by the examples *)

Definition driver_ok : GL.driver :=
  GL.mkDriver (fun _ => true) (fun _ => true) (fun _ => true).

Definition platform_ok : platform :=
  mkPlatform true (fun _ _ _ => true) true driver_ok.

Definition gl_fresh : GL.state := GL.mk 1 [].

(** [0.5f] and [0.25f]. *)
Definition f0_5 : Float.t := S754_finite false 8388608 (-24).
Definition f0_25 : Float.t := S754_finite false 8388608 (-25).

Definition frame_after (d : Float.t) : App.frame_input :=
  App.mkFrameInput false d 7 8.

(** A 2x2 application whose [update] draws one red pixel. *)
Definition app_draws : App.callbacks :=
  App.mkCallbacks
    (fun _ => [App.CallSetSize 2 2; App.CallSetPixelSize 3])
    (fun _ => [App.CallDrawPixel 0 0 Color.Red]).


(** The state a run has reached, or the untouched application if it
    failed. *)
Definition state_of (r : outcome App.running) : App.running :=
  match r with
  | Ok st => st
  | _ => App.mkRunning App.App gl_fresh Float.zero 0
  end.

(** [app_draws] after two frames of 0.5 s and 0.25 s. *)
Definition two_frames : outcome App.running :=
  App.running_after platform_ok app_draws
          [frame_after f0_5; frame_after f0_25] App.App gl_fresh.

(** ** Observing the graphics pipeline *)

(** A sequence of [upload] calls, one per surface. *)
Fixpoint uploads (drv : GL.driver) (g : Graphics.t) (surfaces : list Surface.t)
    (gl : GL.state) : outcome (Graphics.t * GL.state) :=
  match surfaces with
  | [] => Ok (g, gl)
  | s :: rest =>
      let* r := Graphics.upload drv g s gl in
      uploads drv (fst r) rest (snd r)
  end.

(** The transfer buffers a trace maps for writing, in order: the buffer
    mapped is the one bound to the pixel-unpack target at that moment. *)
Fixpoint mapped_buffers (bound : Z) (tr : list GL.call) : list Z :=
  match tr with
  | [] => []
  | GL.BindBuffer_PIXEL_UNPACK n :: rest => mapped_buffers n rest
  | GL.MapBuffer_PIXEL_UNPACK :: rest => bound :: mapped_buffers bound rest
  | _ :: rest => mapped_buffers bound rest
  end.

(** The buffer the [k]-th upload (counting from 1) is expected to use
    when the index starts at [c]. *)
Definition buffer_of_upload (g : Graphics.t) (c k : Z) : Z :=
  if Z.odd (c + k) then Graphics.pbo1 g else Graphics.pbo0 g.

(** Every handle of the pipeline is live. *)
Definition initialized (g : Graphics.t) : Prop :=
  Graphics.texture g <> 0 /\ Graphics.pbo0 g <> 0 /\ Graphics.vao g <> 0
  /\ Graphics.vbo g <> 0 /\ Graphics.shaderProgram g <> 0.

Definition surface_2x2 : Surface.t := Surface.mk 2 2 [1; 2; 3; 4].
Definition surface_3x1 : Surface.t := Surface.mk 3 1 [5; 6; 7].

(** A pipeline initialised for a 2x2 surface on a fresh driver. *)
Definition pipeline_2x2 : outcome (Graphics.t * GL.state) :=
  Graphics.initialize driver_ok Graphics.Graphics surface_2x2 gl_fresh.

(** The pipeline and driver an outcome holds, or fresh ones if it
    failed. *)
Definition pair_of (r : outcome (Graphics.t * GL.state)) : Graphics.t * GL.state :=
  match r with
  | Ok x => x
  | _ => (Graphics.Graphics, gl_fresh)
  end.

(** The calls of a successful [initialize] for a [w] x [h] surface when
    the next free object name is [n]. *)
Definition initialize_calls (n w h : Z) : list GL.call :=
  [GL.GenTextures n; GL.BindTexture n; GL.TexImage2D w h;
   GL.TexParameteri_MIN_FILTER_NEAREST; GL.TexParameteri_MAG_FILTER_NEAREST;
   GL.BindTexture 0;
   GL.GenBuffers [n + 1; n + 2];
   GL.BindBuffer_PIXEL_UNPACK (n + 1);
   GL.BufferData_PIXEL_UNPACK (CInt.mul (CInt.mul w h) 4);
   GL.BindBuffer_PIXEL_UNPACK (n + 2);
   GL.BufferData_PIXEL_UNPACK (CInt.mul (CInt.mul w h) 4);
   GL.BindBuffer_PIXEL_UNPACK 0;
   GL.GenVertexArrays (n + 3); GL.GenBuffers [n + 4];
   GL.BindVertexArray (n + 3); GL.BindBuffer_ARRAY (n + 4);
   GL.BufferData_ARRAY_quad;
   GL.EnableVertexAttribArray 0; GL.VertexAttribPointer 0;
   GL.EnableVertexAttribArray 1; GL.VertexAttribPointer 1;
   GL.BindVertexArray 0;
   GL.CreateShader GL.VERTEX_SHADER (n + 5); GL.CompileShader (n + 5);
   GL.CreateShader GL.FRAGMENT_SHADER (n + 6); GL.CompileShader (n + 6);
   GL.CreateProgram (n + 7);
   GL.AttachShader (n + 7) (n + 5); GL.AttachShader (n + 7) (n + 6);
   GL.LinkProgram (n + 7);
   GL.DeleteShader (n + 5); GL.DeleteShader (n + 6)].

(** ** Well-formed surfaces *)

(** The invariant a surface has once its constructor succeeded without
    overflowing [int]: one buffer element per pixel. *)
Definition wf_surface (s : Surface.t) : Prop :=
  0 <= Surface.width s
  /\ 0 <= Surface.height s
  /\ Z.of_nat (length (Surface.pixels s)) = Surface.width s * Surface.height s
  /\ Surface.width s * Surface.height s <= CInt.INT_MAX.

(** The buffer element of pixel [(x, y)]. *)
Definition pixel_at (s : Surface.t) (x y : Z) : option Z :=
  Surface.pixels s !! Z.to_nat (y * Surface.width s + x).



(** ** Object names in a trace *)



(** The six handles a pipeline holds. *)
Definition handles (g : Graphics.t) : list Z :=
  [Graphics.texture g; Graphics.pbo0 g; Graphics.pbo1 g; Graphics.vao g;
   Graphics.vbo g; Graphics.shaderProgram g].

(** ** States of a run *)

(** The application as the [update] callback of an iteration finds it:
    the delta time stored and the input polled. *)
Definition before_update (inp : App.frame_input) (st : App.running) : App.t :=
  match App.input (App.app st) with
  | Some i =>
      App.with_input
        (Some (Input.poll i (App.cursorX inp) (App.cursorY inp)))
        (App.with_deltaTime (App.delta inp) (App.app st))
  | None => App.app st
  end.

(** What holds at every loop head of a run: the input, the pipeline and
    the surface exist, the pipeline has the surface's dimensions and
    its index is 0 or 1. *)
Definition running_inv (st : App.running) : Prop :=
  exists i g s,
    App.input (App.app st) = Some i
    /\ App.graphics (App.app st) = Some g
    /\ App.surface (App.app st) = Some s
    /\ Graphics.width g = Surface.width s
    /\ Graphics.height g = Surface.height s
    /\ (Graphics.currentPBO g = 0 \/ Graphics.currentPBO g = 1).


(** A 2x2 application that turns vsync off. *)
Definition app_no_vsync : App.callbacks :=
  App.mkCallbacks
    (fun _ => [App.CallSetSize 2 2; App.CallSetVSync false])
    (fun _ => []).

(** ** Painting a surface pixel by pixel *)

(** The surface once the pixels selected by [covered] have been given
    the colours [color] on top of [s0]: same size, still well-formed,
    covered pixels holding their packed colour, the others as in
    [s0]. *)
Definition painted (s0 : Surface.t) (color : Z -> Z -> Color.t)
    (covered : Z -> Z -> Prop) (s : Surface.t) : Prop :=
  wf_surface s
  /\ Surface.width s = Surface.width s0
  /\ Surface.height s = Surface.height s0
  /\ forall x y,
       Surface.isInBounds s0 x y = true ->
       (covered x y -> pixel_at s x y = Some (Color.toUInt32 (color x y)))
       /\ (~ covered x y -> pixel_at s x y = pixel_at s0 x y).

(** ** Lines *)

Definition between (p q v : Z) : Prop := Z.min p q <= v <= Z.max p q.

(** The surface after a line from [(x0, y0)] to [(x1, y1)] has been
    drawn in colour [c] on top of [s0]: same size, both end points in
    that colour, and every pixel either as it was or in that colour and
    inside the rectangle spanned by the end points. *)
Definition line_drawn (s0 : Surface.t) (x0 y0 x1 y1 : Z) (c : Color.t)
    (s : Surface.t) : Prop :=
  wf_surface s
  /\ Surface.width s = Surface.width s0
  /\ Surface.height s = Surface.height s0
  /\ pixel_at s x0 y0 = Some (Color.toUInt32 c)
  /\ pixel_at s x1 y1 = Some (Color.toUInt32 c)
  /\ forall x y,
       Surface.isInBounds s0 x y = true ->
       pixel_at s x y = pixel_at s0 x y
       \/ (pixel_at s x y = Some (Color.toUInt32 c)
           /\ between x0 x1 x /\ between y0 y1 y).

(** * Properties *)

(** ** Outcomes *)

Lemma bind_Ok_inv {A B : Type} (m : outcome A) (k : A -> outcome B) (b : B) :
  bind m k = Ok b -> exists a, m = Ok a /\ k a = Ok b.
Proof. destruct m; simpl; intros H; try discriminate; eauto. Qed.

Lemma PXR_ASSERT_Ok_inv (cond : bool) (msg : string) (u : unit) :
  PXR_ASSERT cond msg = Ok u -> cond = true.
Proof. destruct cond; simpl; [reflexivity | discriminate]. Qed.

(** Splits a hypothesis [bind m k = Ok b] into its two steps. *)
Ltac outcome_inv :=
  repeat match goal with
  | H : bind _ _ = Ok _ |- _ =>
      let a := fresh "r" in
      let Hm := fresh "Hm" in
      apply bind_Ok_inv in H as (a & Hm & H)
  | H : PXR_ASSERT _ _ = Ok _ |- _ => apply PXR_ASSERT_Ok_inv in H
  | H : Ok _ = Ok _ |- _ => injection H as H
  | H : Fatal _ = Ok _ |- _ => discriminate H
  | H : Undefined _ = Ok _ |- _ => discriminate H
  | H : Throws _ = Ok _ |- _ => discriminate H
  end.

(** ** Machine integers *)

Lemma to_int_small (z : Z) : CInt.in_int z -> CInt.to_int z = z.
Proof.
  unfold CInt.in_int, CInt.INT_MIN, CInt.INT_MAX, CInt.to_int; intros H.
  rewrite Z.mod_small by lia. lia.
Qed.

(** ** What a callback can and cannot change *)

Section Callbacks.

Import App.

Lemma same_private_refl (a : App.t) : same_private a a.
Proof. unfold same_private; tauto. Qed.

Lemma same_private_trans (a b c : App.t) :
  same_private a b -> same_private b c -> same_private a c.
Proof.
  unfold same_private; intros H1 H2.
  destruct H1 as (?&?&?&?&?&?&?&?), H2 as (?&?&?&?&?&?&?&?).
  repeat split; try congruence; auto.
Qed.

Lemma exec_same_private (c : call) (a a' : App.t) :
  exec c a = Ok a' -> same_private a a'.
Proof.
  destruct c; simpl;
    unfold setVSync, setSize, setPixelSize, setTitle, background, drawPixel,
           drawSurface, exit, getMouseX, getMouseY;
    intros H.
  1-4: outcome_inv; subst a'; unfold same_private; simpl; tauto.
  - injection H as <-. destruct a as [? ? ? ? ? ? ? ? ? ? ? ? ? [s|] ?];
      unfold same_private; simpl; repeat split; congruence.
  - destruct (surface a) eqn:Hs; outcome_inv; subst a';
      unfold same_private; simpl; repeat split; congruence.
  - destruct (surface a) eqn:Hs; outcome_inv; subst a';
      unfold same_private; simpl; repeat split; congruence.
  - injection H as <-. unfold same_private; simpl; tauto.
  - outcome_inv; subst a'; apply same_private_refl.
  - outcome_inv; subst a'; apply same_private_refl.
Qed.

Lemma script_same_private (cs : list call) (a a' : App.t) :
  script cs a = Ok a' -> same_private a a'.
Proof.
  revert a; induction cs as [|c cs IH]; simpl; intros a H.
  - injection H as <-; apply same_private_refl.
  - outcome_inv. eapply same_private_trans.
    + eapply exec_same_private; eassumption.
    + apply IH; assumption.
Qed.

End Callbacks.

(** ** Configuration setters *)

Section Setters.

Import App.

Lemma setter_in_setup (c : call) (a : App.t) :
  is_setter c = true -> inSetupPhase a = true -> exec c a = Ok (stored c a).
Proof.
  intros Hc Ha; destruct c; try discriminate Hc; simpl;
    unfold setVSync, setSize, setPixelSize, setTitle, enforceSetupCall;
    rewrite Ha; reflexivity.
Qed.





End Setters.

(** ** C4: configuration setters are accepted only during setup *)

Section SetupOnly.

Import App.



End SetupOnly.

(** ** C9: the pixel size is stored unchecked and divides unguarded *)

Section PixelSize.

Import App.




Example pixel_size_zero_divides :
  (let* a := setPixelSize (with_inSetupPhase true App.App) 0 in
   getMouseX (with_input (Some (Input.mk true 120 45)) a))
  = Undefined DivisionByZero.
Proof. reflexivity. Qed.

End PixelSize.

(** ** C10: drawing before the surface exists *)

Section NoSurface.

Import App.




(** Drawing calls made inside [setup] are silently dropped: the run
    starts with the background the callback chose and no red pixel. *)
Example setup_drawing_dropped :
  App.surface
    (App.app
       (state_of
          (start platform_ok
             (mkCallbacks
                (fun _ => [CallSetSize 2 1; CallDrawPixel 0 0 Color.Red;
                           CallDrawPixel 9 9 Color.Red;
                           CallBackground Color.Blue])
                (fun _ => []))
             App.App gl_fresh)))
  = Some (Surface.mk 2 1 [Color.toUInt32 Color.Blue; Color.toUInt32 Color.Blue]).
Proof. vm_compute; reflexivity. Qed.

End NoSurface.

(** ** C7: the frame rate is a windowed average *)

Section FrameRate.

Import App.

(** C7.  In an iteration of the loop the accumulated time becomes the
    old accumulator plus the iteration's delta and the accumulated
    count the old count plus one.  If that time is at least [1.0f] the
    published rate becomes count / time and both accumulators restart
    at zero; otherwise the published rate is the one of the previous
    iteration and the accumulators keep their new values. *)
Theorem fps_recomputed_each_second
    (p : platform) (cb : callbacks) (inp : frame_input) (st st' : running) :
  frame p cb inp st = Ok st' ->
  let time := Float.add (fpsTimer st) (delta inp) in
  let count := CInt.add (fpsCounter st) 1 in
  if Float.ge time Float.one then
    fps (app st') = Float.div (Float.of_int count) time
    /\ fpsTimer st' = Float.zero
    /\ fpsCounter st' = 0
  else
    fps (app st') = fps (app st)
    /\ fpsTimer st' = time
    /\ fpsCounter st' = count.
Proof.
  unfold frame; intros H; outcome_inv.
  match goal with
  | Hs : script _ _ = Ok _ |- _ =>
      apply script_same_private in Hs as (_ & Hfps & Hdt & _)
  end.
  simpl in Hfps, Hdt. simpl in H. rewrite Hdt in H. simpl.
  destruct (Float.ge (Float.add (fpsTimer st) (delta inp)) Float.one);
    injection H as <-; simpl; repeat split; assumption.
Qed.

(** After 0.5 s and 0.25 s the rate is still the initial 0; a third
    frame of 0.5 s brings the window to 1.25 s and the rate to
    3 / 1.25 = 2.4, not the 2.0 that 1 / 0.5 would give. *)
Lemma fps_recomputed_each_second_witness :
  fps (app (state_of two_frames)) = Float.zero
  /\ fps (app (state_of (frame platform_ok app_draws (frame_after f0_5)
                               (state_of two_frames))))
     = S754_finite false 10066330 (-22).
Proof.
  split; [vm_compute; reflexivity|].
  pose proof (fps_recomputed_each_second platform_ok app_draws
                (frame_after f0_5) (state_of two_frames)
                (state_of (frame platform_ok app_draws (frame_after f0_5)
                                 (state_of two_frames)))) as H.
  lazy zeta in H.
  replace (Float.ge _ _) with true in H by (vm_compute; reflexivity).
  destruct H as (H & _); [vm_compute; reflexivity|].
  rewrite H. vm_compute; reflexivity.
Defined.

End FrameRate.

(** ** C5: uploads alternate between the two transfer buffers *)

Section PingPong.

Import Graphics.

Variable drv : GL.driver.

(** One upload from index [c] in {0, 1}, whatever the driver answers:
    either the mapping is refused, or the index is now [1 - c] and the
    buffer bound and mapped is the one at the new index. *)
Lemma upload_flips (g : Graphics.t) (s : Surface.t) (gl : GL.state) :
  currentPBO g = 0 \/ currentPBO g = 1 ->
  Surface.getWidth s = width g -> Surface.getHeight s = height g ->
  (upload drv g s gl = Fatal "PBO mapping failed."
   /\ exists tr, GL.map_buffer drv tr = false)
  \/
  exists g' chunk,
    upload drv g s gl = Ok (g', GL.emit chunk gl)
    /\ currentPBO g' = 1 - currentPBO g
    /\ pbo0 g' = pbo0 g /\ pbo1 g' = pbo1 g
    /\ width g' = width g /\ height g' = height g
    /\ forall bound rest,
         mapped_buffers bound (chunk ++ rest)
         = buffer_of_upload g (currentPBO g) 1 :: mapped_buffers 0 rest.
Proof.
  intros Hc Hw Hh. unfold upload.
  rewrite Hw, Hh, !Z.eqb_refl. simpl.
  destruct g as [tex b0 b1 va vb sp c w h]; simpl in *.
  destruct Hc as [-> | ->]; simpl;
    match goal with
    | |- context [GL.map_buffer drv ?tr] =>
        destruct (GL.map_buffer drv tr) eqn:Hmap
    end; simpl; try (left; split; [reflexivity | eauto]); right;
    eexists _, _; (split; [unfold GL.emit; simpl; rewrite <- app_assoc;
                           reflexivity|]);
    simpl; repeat split.
Qed.

Lemma uploads_alternate_from (surfaces : list Surface.t) :
  forall (g : Graphics.t) (gl : GL.state),
  currentPBO g = 0 \/ currentPBO g = 1 ->
  Forall (fun s => Surface.getWidth s = width g
                   /\ Surface.getHeight s = height g) surfaces ->
  (uploads drv g surfaces gl = Fatal "PBO mapping failed."
   /\ exists tr, GL.map_buffer drv tr = false)
  \/
  exists g' suffix,
    uploads drv g surfaces gl = Ok (g', GL.emit suffix gl)
    /\ currentPBO g' = (currentPBO g + Z.of_nat (length surfaces)) mod 2
    /\ forall bound,
         mapped_buffers bound suffix
         = map (buffer_of_upload g (currentPBO g))
               (seqZ 1 (Z.of_nat (length surfaces))).
Proof.
  induction surfaces as [|s rest IH]; intros g gl Hc Hall.
  - right. exists g, []. simpl. unfold GL.emit; rewrite app_nil_r.
    destruct gl; simpl. repeat split.
    rewrite Z.add_0_r. destruct Hc as [-> | ->]; reflexivity.
  - apply Forall_cons in Hall as ((Hw & Hh) & Hall).
    simpl uploads.
    destruct (upload_flips g s gl Hc Hw Hh)
      as [(Hfail & Hrefused)
         | (g1 & chunk & Hup & Hc1 & Hb0 & Hb1 & Hw1 & Hh1 & Hmap)].
    { left. rewrite Hfail. split; [reflexivity | exact Hrefused]. }
    rewrite Hup. simpl.
    destruct (IH g1 (GL.emit chunk gl))
      as [(Hfail & Hrefused) | (g' & suffix & Hrest & Hc' & Hmap')].
    { lia. }
    { rewrite Hw1, Hh1. exact Hall. }
    { left. split; [exact Hfail | exact Hrefused]. }
    right. exists g', (chunk ++ suffix).
    rewrite Hrest. split.
    { unfold GL.emit; simpl. rewrite app_assoc. reflexivity. }
    split.
    { rewrite Hc', Hc1. rewrite Nat2Z.inj_succ.
      destruct Hc as [-> | ->]; [f_equal; lia|].
      replace (1 + Z.succ (Z.of_nat (length rest)))
        with (1 - 1 + Z.of_nat (length rest) + 1 * 2) by lia.
      symmetry; apply Z.mod_add; lia. }
    intros bound. rewrite Hmap, Hmap'.
    rewrite Nat2Z.inj_succ.
    rewrite (seqZ_cons 1 (Z.succ (Z.of_nat (length rest)))) by lia.
    simpl. f_equal.
    rewrite Z.pred_succ.
    replace (Z.succ 1) with (1 + 1) by lia.
    rewrite <- (fmap_add_seqZ 1 1). rewrite <- list_fmap_compose.
    apply map_ext. intros k. unfold buffer_of_upload, compose.
    rewrite Hb0, Hb1, Hc1.
    replace (1 - currentPBO g + k) with (currentPBO g + (1 + k) - 2 * currentPBO g)
      by lia.
    rewrite Z.odd_sub, Z.odd_mul. simpl. rewrite Bool.xorb_false_r. reflexivity.
Qed.

End PingPong.

(** A freshly constructed pipeline has index 0, and [initialize] keeps
    the index and yields two distinct transfer buffers. *)
Lemma initialize_index (drv : GL.driver) (g g' : Graphics.t) (s : Surface.t)
    (gl gl' : GL.state) :
  Graphics.initialize drv g s gl = Ok (g', gl') ->
  Graphics.currentPBO g' = Graphics.currentPBO g
  /\ Graphics.pbo0 g' <> Graphics.pbo1 g'
  /\ Graphics.width g' = Surface.width s
  /\ Graphics.height g' = Surface.height s.
Proof.
  unfold Graphics.initialize, Graphics.createShaders; simpl.
  intros H; outcome_inv. subst g'. simpl.
  repeat split. lia.
Qed.

(** C5.  Take a pipeline whose index is 0 and a sequence of [n]
    surfaces that match its dimensions.  The uploads either all return
    or stop at a mapping the driver refuses, and they all return when
    the driver grants every mapping.  When they return, the index is
    [n mod 2], hence 0 or 1, and the [k]-th upload has bound and mapped
    the buffer at index [k mod 2]: each upload moves to the other buffer
    before it writes, so two consecutive uploads use different
    buffers. *)
Theorem upload_alternates (drv : GL.driver) (g : Graphics.t)
    (surfaces : list Surface.t) (gl : GL.state) :
  Graphics.currentPBO g = 0 ->
  Forall (fun s => Surface.getWidth s = Graphics.width g
                   /\ Surface.getHeight s = Graphics.height g) surfaces ->
  ((uploads drv g surfaces gl = Fatal "PBO mapping failed."
    /\ exists tr, GL.map_buffer drv tr = false)
   \/
   exists g' suffix,
     uploads drv g surfaces gl = Ok (g', GL.emit suffix gl)
     /\ Graphics.currentPBO g' = Z.of_nat (length surfaces) mod 2
     /\ (Graphics.currentPBO g' = 0 \/ Graphics.currentPBO g' = 1)
     /\ mapped_buffers 0 suffix
        = map (fun k => if Z.odd k then Graphics.pbo1 g else Graphics.pbo0 g)
              (seqZ 1 (Z.of_nat (length surfaces))))
  /\ (Graphics.pbo0 g <> Graphics.pbo1 g ->
      forall k, buffer_of_upload g 0 k <> buffer_of_upload g 0 (k + 1)).
Proof.
  intros Hc Hall. split.
  - destruct (uploads_alternate_from drv surfaces g gl)
      as [Hfail | (g' & suffix & Hup & Hidx & Hbuf)];
      [auto | exact Hall | left; exact Hfail |].
    right. rewrite Hc in Hidx, Hbuf. rewrite Z.add_0_l in Hidx.
    exists g', suffix. split; [exact Hup|]. split; [exact Hidx|].
    split; [|apply Hbuf].
    rewrite Hidx.
    pose proof (Z.mod_pos_bound (Z.of_nat (length surfaces)) 2 ltac:(lia)). lia.
  - intros Hne k. unfold buffer_of_upload.
    rewrite !Z.add_0_l, Z.odd_add. change (Z.odd 1) with true.
    destruct (Z.odd k); simpl; intros E; apply Hne; congruence.
Qed.

Lemma upload_alternates_witness :
  exists g' suffix,
    uploads driver_ok (fst (pair_of pipeline_2x2))
            [surface_2x2; surface_2x2; surface_2x2] (snd (pair_of pipeline_2x2))
    = Ok (g', GL.emit suffix (snd (pair_of pipeline_2x2)))
    /\ Graphics.currentPBO g' = 1
    /\ mapped_buffers 0 suffix = [3; 2; 3].
Proof.
  destruct (upload_alternates driver_ok (fst (pair_of pipeline_2x2))
              [surface_2x2; surface_2x2; surface_2x2]
              (snd (pair_of pipeline_2x2)))
    as ([(_ & tr & Hrefused) | (g' & suffix & H1 & H2 & _ & H4)] & _).
  - reflexivity.
  - repeat constructor.
  - discriminate Hrefused.
  - exists g', suffix. split; [exact H1|]. split; [exact H2|]. exact H4.
Defined.

(** ** C6: resize reallocates only when the dimensions change *)

Lemma destroy_calls_initialized (g : Graphics.t) :
  initialized g ->
  Graphics.destroy_calls g
  = [GL.DeleteTextures (Graphics.texture g);
     GL.DeleteBuffers [Graphics.pbo0 g; Graphics.pbo1 g];
     GL.DeleteVertexArrays (Graphics.vao g);
     GL.DeleteBuffers [Graphics.vbo g];
     GL.DeleteProgram (Graphics.shaderProgram g)].
Proof.
  intros (Ht & Hp & Ha & Hb & Hs). unfold Graphics.destroy_calls.
  apply Z.eqb_neq in Ht, Hp, Ha, Hb, Hs.
  rewrite Ht, Hp, Ha, Hb, Hs. reflexivity.
Qed.

(** [initialize] either stops at a shader the driver rejects, or
    succeeds: the handles are then the next eight names (two of them for
    the shaders) and the index is kept. *)
Lemma initialize_outcome (drv : GL.driver) (g : Graphics.t) (s : Surface.t)
    (gl : GL.state) :
  (Graphics.initialize drv g s gl = Fatal "Shader compilation failed."
   /\ exists tr, GL.compile_status drv tr = false)
  \/ (Graphics.initialize drv g s gl = Fatal "Shader linking failed."
      /\ exists tr, GL.link_status drv tr = false)
  \/ Graphics.initialize drv g s gl
     = Ok (let n := GL.next_name gl in
           (Graphics.mk n (n + 1) (n + 2) (n + 3) (n + 4) (n + 7)
                        (Graphics.currentPBO g) (Surface.width s)
                        (Surface.height s),
            GL.mk (n + 8)
                  (GL.trace gl
                   ++ initialize_calls n (Surface.width s) (Surface.height s)))).
Proof.
  unfold Graphics.initialize, Graphics.createShaders,
    Graphics.createShaderProgram, Graphics.compileShader,
    Graphics.createTexture, Graphics.createPBOs, Graphics.createQuad.
  simpl.
  match goal with
  | |- context [GL.compile_status drv ?tr] =>
      destruct (GL.compile_status drv tr) eqn:Hvertex
  end; simpl; [|left; split; [reflexivity | eauto]].
  match goal with
  | |- context [GL.compile_status drv ?tr] =>
      destruct (GL.compile_status drv tr) eqn:Hfragment
  end; simpl; [|left; split; [reflexivity | eauto]].
  match goal with
  | |- context [GL.link_status drv ?tr] =>
      destruct (GL.link_status drv tr) eqn:Hlink
  end; simpl; [|right; left; split; [reflexivity | eauto]].
  right; right.
  unfold GL.emit, Surface.getWidth, Surface.getHeight, initialize_calls. simpl.
  rewrite <- !app_assoc. simpl.
  rewrite <- !Z.add_assoc. simpl. reflexivity.
Qed.

(** C6.  When the surface has the pipeline's width and height, [resize]
    returns the pipeline and the driver untouched: no call reaches the
    driver.  When they differ, on an initialised pipeline, [resize]
    either stops at a shader the driver rejects or returns; the calls it
    has then added to the trace are the releases followed by the
    allocations: each of the five resources is released exactly once,
    each is allocated exactly once, the texture and the two transfer
    buffers at the new size, and the pipeline ends at the surface's
    dimensions, so that resizing again to the same surface changes
    nothing. *)
Theorem resize_reallocates_once (drv : GL.driver) (g : Graphics.t)
    (s : Surface.t) (gl : GL.state) :
  initialized g ->
  if (Surface.getWidth s =? Graphics.width g)
     && (Surface.getHeight s =? Graphics.height g)
  then Graphics.resize drv g s gl = Ok (g, gl)
  else
    (Graphics.resize drv g s gl = Fatal "Shader compilation failed."
     /\ exists tr, GL.compile_status drv tr = false)
    \/ (Graphics.resize drv g s gl = Fatal "Shader linking failed."
        /\ exists tr, GL.link_status drv tr = false)
    \/ exists g' gl' releases allocations,
      Graphics.resize drv g s gl = Ok (g', gl')
      /\ GL.trace gl' = GL.trace gl ++ releases ++ allocations
      /\ releases
         = [GL.DeleteTextures (Graphics.texture g);
            GL.DeleteBuffers [Graphics.pbo0 g; Graphics.pbo1 g];
            GL.DeleteVertexArrays (Graphics.vao g);
            GL.DeleteBuffers [Graphics.vbo g];
            GL.DeleteProgram (Graphics.shaderProgram g)]
      /\ filter (fun c => GL.is_release c = true) allocations = []
      /\ filter (fun c => GL.is_allocation c = true) allocations
         = [GL.GenTextures (Graphics.texture g');
            GL.GenBuffers [Graphics.pbo0 g'; Graphics.pbo1 g'];
            GL.GenVertexArrays (Graphics.vao g');
            GL.GenBuffers [Graphics.vbo g'];
            GL.CreateProgram (Graphics.shaderProgram g')]
      /\ filter (fun c => match c with
                          | GL.TexImage2D _ _ | GL.BufferData_PIXEL_UNPACK _ => true
                          | _ => false
                          end = true) allocations
         = [GL.TexImage2D (Surface.width s) (Surface.height s);
            GL.BufferData_PIXEL_UNPACK
              (CInt.mul (CInt.mul (Surface.width s) (Surface.height s)) 4);
            GL.BufferData_PIXEL_UNPACK
              (CInt.mul (CInt.mul (Surface.width s) (Surface.height s)) 4)]
      /\ Graphics.width g' = Surface.width s
      /\ Graphics.height g' = Surface.height s
      /\ Graphics.currentPBO g' = Graphics.currentPBO g
      /\ Graphics.resize drv g' s gl' = Ok (g', gl').
Proof.
  intros Hinit.
  destruct ((Surface.getWidth s =? Graphics.width g)
            && (Surface.getHeight s =? Graphics.height g)) eqn:Hdims.
  { unfold Graphics.resize. rewrite Hdims. reflexivity. }
  unfold Graphics.resize at 1 2 3. rewrite Hdims.
  unfold Graphics.destroy.
  match goal with
  | |- context [Graphics.initialize drv ?g0 s ?gl0] =>
      destruct (initialize_outcome drv g0 s gl0)
        as [(Hfail & Hwhy) | [(Hfail & Hwhy) | Hok]]
  end.
  { left. split; [exact Hfail | exact Hwhy]. }
  { right; left. split; [exact Hfail | exact Hwhy]. }
  right; right. rewrite Hok.
  rewrite (destroy_calls_initialized g Hinit).
  eexists _, _, _, _. split; [reflexivity|].
  split.
  { simpl. rewrite <- app_assoc. reflexivity. }
  split; [reflexivity|].
  split; [reflexivity|].
  split; [reflexivity|].
  split; [reflexivity|].
  split; [reflexivity|].
  split; [reflexivity|].
  split; [reflexivity|].
  unfold Graphics.resize, Surface.getWidth, Surface.getHeight. simpl.
  rewrite !Z.eqb_refl. reflexivity.
Qed.

Lemma initialized_pipeline_2x2 : initialized (fst (pair_of pipeline_2x2)).
Proof. vm_compute; repeat split; discriminate. Defined.

Lemma resize_reallocates_once_witness :
  Graphics.resize driver_ok (fst (pair_of pipeline_2x2)) surface_2x2
                  (snd (pair_of pipeline_2x2))
  = Ok (pair_of pipeline_2x2)
  /\ (let r := pair_of (Graphics.resize driver_ok (fst (pair_of pipeline_2x2))
                          surface_3x1 (snd (pair_of pipeline_2x2))) in
      Graphics.width (fst r) = 3 /\ Graphics.height (fst r) = 1).
Proof.
  split.
  - exact (resize_reallocates_once driver_ok (fst (pair_of pipeline_2x2))
             surface_2x2 (snd (pair_of pipeline_2x2))
             initialized_pipeline_2x2).
  - pose proof (resize_reallocates_once driver_ok (fst (pair_of pipeline_2x2))
                  surface_3x1 (snd (pair_of pipeline_2x2))
                  initialized_pipeline_2x2) as H.
    destruct H as [(_ & tr & Hno) | [(_ & tr & Hno)
                  | (g' & gl' & rel & alloc & Hres & _ & _ & _ & _ & _
                     & Hw & Hh & _)]].
    + discriminate Hno.
    + discriminate Hno.
    + rewrite Hres. simpl. split; [exact Hw | exact Hh].
Defined.

(** ** Surfaces *)

Section SurfaceFacts.

Import Surface.

Lemma isInBounds_spec (s : Surface.t) (x y : Z) :
  isInBounds s x y = true <-> (0 <= x < width s /\ 0 <= y < height s).
Proof.
  unfold isInBounds. rewrite !andb_true_iff, !Z.leb_le, !Z.ltb_lt. lia.
Qed.

Lemma isInBounds_false (s : Surface.t) (x y : Z) :
  isInBounds s x y = false <->
  (x < 0 \/ y < 0 \/ width s <= x \/ height s <= y).
Proof.
  rewrite <- not_true_iff_false, isInBounds_spec. lia.
Qed.

Lemma to_size_t_small (z : Z) : 0 <= z <= CInt.INT_MAX -> CInt.to_size_t z = z.
Proof.
  unfold CInt.INT_MAX, CInt.to_size_t; intros H. apply Z.mod_small. lia.
Qed.

(** In bounds of a well-formed surface the row-major index is computed
    without overflow and falls inside the buffer. *)
Lemma index_exact (s : Surface.t) (x y : Z) :
  wf_surface s -> isInBounds s x y = true ->
  index s x y = y * width s + x
  /\ 0 <= y * width s + x < Z.of_nat (length (pixels s))
  /\ y * width s + x <= CInt.INT_MAX.
Proof.
  intros (Hw & Hh & Hlen & Hmax) Hin. apply isInBounds_spec in Hin.
  assert (Hrow : 0 <= y * width s <= (height s - 1) * width s) by nia.
  assert (Hidx : 0 <= y * width s + x < width s * height s) by nia.
  unfold index, CInt.add, CInt.mul.
  unfold CInt.INT_MAX in *.
  rewrite (to_int_small (y * width s))
    by (unfold CInt.in_int, CInt.INT_MIN, CInt.INT_MAX; lia).
  rewrite to_int_small
    by (unfold CInt.in_int, CInt.INT_MIN, CInt.INT_MAX; lia).
  lia.
Qed.

Lemma setPixel_ok (s : Surface.t) (x y : Z) (c : Color.t) :
  wf_surface s -> isInBounds s x y = true ->
  setPixel s x y c
  = Ok (mk (width s) (height s)
           (<[Z.to_nat (y * width s + x) := Color.toUInt32 c]> (pixels s))).
Proof.
  intros Hwf Hin. destruct (index_exact s x y Hwf Hin) as (Hi & Hr & Hm).
  unfold setPixel, Vector.set. rewrite Hin, Hi. simpl.
  rewrite to_size_t_small by lia.
  destruct (Z.ltb_spec (y * width s + x) (Z.of_nat (length (pixels s))));
    [reflexivity | lia].
Qed.

Lemma getPixel_ok (s : Surface.t) (x y : Z) :
  wf_surface s -> isInBounds s x y = true ->
  exists p, pixel_at s x y = Some p
            /\ getPixel s x y = Ok (Color.Color p 0 0 255).
Proof.
  intros Hwf Hin. destruct (index_exact s x y Hwf Hin) as (Hi & Hr & Hm).
  unfold getPixel, Vector.get, pixel_at. rewrite Hin, Hi. simpl.
  rewrite to_size_t_small by lia.
  destruct (lookup_lt_is_Some_2 (pixels s) (Z.to_nat (y * width s + x)))
    as (p & Hp); [lia|].
  exists p. rewrite Hp. split; reflexivity.
Qed.

Lemma setPixel_wf (s s' : Surface.t) (x y : Z) (c : Color.t) :
  wf_surface s -> setPixel s x y c = Ok s' ->
  wf_surface s' /\ width s' = width s /\ height s' = height s.
Proof.
  intros Hwf H. unfold setPixel, Vector.set in H. outcome_inv.
  destruct (_ <? _) in Hm0; [|discriminate].
  injection Hm0 as <-. subst s'. unfold wf_surface in *; simpl.
  rewrite length_insert. tauto.
Qed.

(** The constructor on positive dimensions whose product fits [int]. *)
Lemma Surface_ok (w h : Z) (c : Color.t) :
  0 < w -> 0 < h -> w * h <= CInt.INT_MAX ->
  Surface.Surface w h c
  = Ok (mk w h (replicate (Z.to_nat (w * h)) (Color.toUInt32 c)))
  /\ wf_surface (mk w h (replicate (Z.to_nat (w * h)) (Color.toUInt32 c))).
Proof.
  intros Hw Hh Hmax. unfold Surface.Surface, Vector.fill, CInt.mul.
  assert (0 < w * h) by nia.
  rewrite to_int_small
    by (unfold CInt.in_int, CInt.INT_MIN, CInt.INT_MAX in *; lia).
  rewrite to_size_t_small by lia.
  destruct (Z.ltb_spec Vector.max_size (w * h)) as [Hbig|_].
  { unfold Vector.max_size, CInt.INT_MAX in *.
    change ((2 ^ 63 - 1) / 4) with 2305843009213693951 in Hbig. lia. }
  simpl.
  destruct (Z.ltb_spec 0 w); [|lia]. destruct (Z.ltb_spec 0 h); [|lia].
  simpl. split; [reflexivity|].
  unfold wf_surface; simpl. rewrite length_replicate. lia.
Qed.

(** The constructor when a dimension is not positive but the product
    is not negative: the assertion is reached and fails. *)
Lemma Surface_dimension_error (w h : Z) (c : Color.t) :
  CInt.in_int w -> CInt.in_int h ->
  (w <= 0 \/ h <= 0) -> 0 <= CInt.mul w h ->
  Surface.Surface w h c = Fatal "Surface dimensions must be positive.".
Proof.
  intros Hw Hh Hneg Hprod. unfold Surface.Surface, Vector.fill.
  assert (Hr : CInt.mul w h <= CInt.INT_MAX).
  { unfold CInt.mul, CInt.to_int, CInt.INT_MAX.
    pose proof (Z.mod_pos_bound (w * h + 2 ^ 31) (2 ^ 32) ltac:(lia)). lia. }
  rewrite to_size_t_small by lia.
  destruct (Z.ltb_spec Vector.max_size (CInt.mul w h)) as [Hbig|_].
  { unfold Vector.max_size, CInt.INT_MAX in *.
    change ((2 ^ 63 - 1) / 4) with 2305843009213693951 in Hbig. lia. }
  simpl.
  destruct (Z.ltb_spec 0 w); destruct (Z.ltb_spec 0 h);
    try reflexivity; lia.
Qed.

(** The constructor when the product of the dimensions is negative:
    the buffer is requested first, with a size beyond [max_size]. *)
Lemma Surface_length_error (w h : Z) (c : Color.t) :
  CInt.mul w h < 0 ->
  Surface.Surface w h c = Throws length_error.
Proof.
  intros Hprod. unfold Surface.Surface, Vector.fill.
  assert (Hr : CInt.INT_MIN <= CInt.mul w h).
  { unfold CInt.mul, CInt.to_int, CInt.INT_MIN.
    pose proof (Z.mod_pos_bound (w * h + 2 ^ 31) (2 ^ 32) ltac:(lia)). lia. }
  assert (Hs : CInt.to_size_t (CInt.mul w h) = CInt.mul w h + 2 ^ 64).
  { unfold CInt.to_size_t, CInt.INT_MIN in *.
    rewrite <- (Z.mod_add _ 1) by lia.
    rewrite Z.mod_small; lia. }
  rewrite Hs.
  destruct (Z.ltb_spec Vector.max_size (CInt.mul w h + 2 ^ 64)) as [_|Hsmall].
  { reflexivity. }
  unfold Vector.max_size, CInt.INT_MIN in *.
  change ((2 ^ 63 - 1) / 4) with 2305843009213693951 in Hsmall. lia.
Qed.

End SurfaceFacts.

(** ** C8: direct pixel access is bounds-checked *)


Lemma wf_surface_2x2 : wf_surface surface_2x2.
Proof.
  unfold wf_surface, CInt.INT_MAX; simpl. lia.
Defined.


(** ** C1: what [getPixel] returns after [setPixel] *)

(** On a well-formed surface, in bounds, reading back a pixel just
    written yields the colour rebuilt by [Color(p)] from the packed
    value [p] of the colour written. *)
Lemma getPixel_after_setPixel (s : Surface.t) (x y : Z) (c : Color.t) :
  wf_surface s -> Surface.isInBounds s x y = true ->
  (let* s' := Surface.setPixel s x y c in Surface.getPixel s' x y)
  = Ok (Color.Color (Color.toUInt32 c) 0 0 255).
Proof.
  intros Hwf Hin.
  pose proof (setPixel_ok s x y c Hwf Hin) as Hset. rewrite Hset. simpl.
  destruct (setPixel_wf s _ x y c Hwf Hset) as (Hwf' & _ & _).
  destruct (getPixel_ok _ x y Hwf' Hin) as (p & Hp & Hget).
  rewrite Hget. unfold pixel_at in Hp. simpl in Hp.
  destruct (index_exact s x y Hwf Hin) as (_ & Hr & _).
  rewrite list_lookup_insert_eq in Hp by lia.
  injection Hp as <-. reflexivity.
Qed.

(** C1 (the code departs from it).  On a 1x1 surface, writing the
    colour (1, 2, 3) at (0, 0) and reading it back yields the colour
    (3, 0, 0): [getPixel] hands the packed pixel to the four-[uint8_t]
    constructor of [Color], which keeps only its low byte, as red. *)
Theorem setPixel_getPixel_loses_color :
  (let* s := Surface.Surface 1 1 Color.Black in
   let* s := Surface.setPixel s 0 0 (Color.Color 1 2 3 255) in
   Surface.getPixel s 0 0)
  = Ok (Color.Color 3 0 0 255)
  /\ Color.eqb (Color.Color 3 0 0 255) (Color.Color 1 2 3 255) = false.
Proof. split; reflexivity. Qed.

(** ** C3: construction of a surface *)

(** C3 (the code departs from it).  With width -1 and height 1 the
    constructor does not reach its dimension assertion: the buffer is
    requested first, with -1 converted to [size_t], and the vector
    constructor throws [std::length_error]. *)
Theorem Surface_negative_width_throws (c : Color.t) :
  Surface.Surface (-1) 1 c = Throws length_error
  /\ Surface.Surface (-1) (-1) c = Fatal "Surface dimensions must be positive."
  /\ Surface.Surface 0 1 c = Fatal "Surface dimensions must be positive.".
Proof. repeat split. Qed.

(** ** C2: blitting *)

(** A loop body that succeeds on every element of the range and carries
    an invariant over the elements already visited. *)
Lemma for_each_invariant {S : Type} (body : Z -> S -> outcome S)
    (I : list Z -> S -> Prop) (range : list Z) :
  forall (visited : list Z) (s : S),
  I visited s ->
  (forall visited i s, i ∈ range -> I visited s ->
     exists s', body i s = Ok s' /\ I (visited ++ [i]) s') ->
  exists s', for_each body range s = Ok s' /\ I (visited ++ range) s'.
Proof.
  induction range as [|i rest IH]; intros visited s HI Hstep; simpl.
  - exists s. rewrite app_nil_r. auto.
  - destruct (Hstep visited i s) as (s1 & Hbody & HI1);
      [apply list_elem_of_here | exact HI |].
    rewrite Hbody; simpl.
    destruct (IH (visited ++ [i]) s1 HI1) as (s' & Hrest & HI').
    { intros v j t Hj. apply Hstep. apply list_elem_of_further, Hj. }
    exists s'. split; [exact Hrest|].
    rewrite <- app_assoc in HI'. exact HI'.
Qed.

Lemma index_injective (w x y x' y' : Z) :
  0 <= x < w -> 0 <= x' < w -> 0 <= y -> 0 <= y' ->
  y * w + x = y' * w + x' -> x = x' /\ y = y'.
Proof.
  intros Hx Hx' Hy Hy' E.
  destruct (Z.lt_trichotomy y y') as [L | [-> | L]]; [nia | lia | nia].
Qed.


Lemma isInBounds_same_size (s t : Surface.t) (x y : Z) :
  Surface.width s = Surface.width t -> Surface.height s = Surface.height t ->
  Surface.isInBounds s x y = Surface.isInBounds t x y.
Proof. unfold Surface.isInBounds. intros -> ->. reflexivity. Qed.






(** C2 (the code departs from it).  Blitting a 1x1 surface holding the
    colour (1, 2, 3) onto a 2x2 black target at (1, 1) stores (3, 0, 0)
    there, not the source pixel: the copy goes through [getPixel].  The
    same blit at (2, 2), outside the target, returns the target as it
    was, without error. *)
Theorem blitTo_alters_pixels :
  (let* src := Surface.Surface 1 1 (Color.Color 1 2 3 255) in
   let* target := Surface.Surface 2 2 Color.Black in
   let* target := Surface.blitTo src target 1 1 in
   Ok (pixel_at target 1 1, pixel_at src 0 0))
  = Ok (Some (Color.toUInt32 (Color.Color 3 0 0 255)),
        Some (Color.toUInt32 (Color.Color 1 2 3 255)))
  /\ (let* src := Surface.Surface 1 1 (Color.Color 1 2 3 255) in
      let* target := Surface.Surface 2 2 Color.Black in
      Surface.blitTo src target 2 2)
     = Surface.Surface 2 2 Color.Black.
Proof. split; reflexivity. Qed.

(** * Further properties of the code *)

(** ** color.h: packing and unpacking *)

Lemma testbit_255 (n : Z) : 0 <= n -> Z.testbit 255 n = (n <? 8).
Proof.
  intros Hn. change 255 with (Z.ones 8).
  apply Z.testbit_ones_nonneg; lia.
Qed.

(** Bit-by-bit comparison of two packed colours. *)
Ltac color_bits :=
  apply Z.bits_inj'; intros n Hn;
  repeat first
    [ rewrite Z.land_spec | rewrite Z.lor_spec
    | rewrite Z.shiftr_spec by lia | rewrite Z.shiftl_spec by lia
    | rewrite testbit_255 by lia
    | rewrite Z.testbit_mod_pow2 by lia ];
  repeat match goal with
  | |- context [?a <? ?b] => destruct (Z.ltb_spec a b)
  end;
  rewrite ?(Z.testbit_neg_r _ (n - 24)), ?(Z.testbit_neg_r _ (n - 16)),
          ?(Z.testbit_neg_r _ (n - 8)), ?(Z.testbit_neg_r _ (n + 16 - 24)),
          ?(Z.testbit_neg_r _ (n + 8 - 16)), ?(Z.testbit_neg_r _ (n + 8 - 24))
    by lia;
  simpl; rewrite ?orb_false_r, ?andb_false_r, ?andb_true_r; simpl;
  try lia; try reflexivity; try (f_equal; lia).

Lemma Color_r (red green blue alpha : Z) :
  Color.r (Color.Color red green blue alpha) = CInt.to_uint8 red.
Proof.
  unfold Color.r, Color.Color, CInt.to_uint8. simpl Color.value.
  color_bits.
Qed.

Lemma Color_g (red green blue alpha : Z) :
  Color.g (Color.Color red green blue alpha) = CInt.to_uint8 green.
Proof.
  unfold Color.g, Color.Color, CInt.to_uint8. simpl Color.value.
  color_bits.
Qed.

Lemma Color_b (red green blue alpha : Z) :
  Color.b (Color.Color red green blue alpha) = CInt.to_uint8 blue.
Proof.
  unfold Color.b, Color.Color, CInt.to_uint8. simpl Color.value.
  color_bits.
Qed.

Lemma Color_a (red green blue alpha : Z) :
  Color.a (Color.Color red green blue alpha) = CInt.to_uint8 alpha.
Proof.
  unfold Color.a, Color.Color, CInt.to_uint8. simpl Color.value.
  color_bits.
Qed.

Lemma Color_value_32bit (red green blue alpha : Z) :
  0 <= Color.toUInt32 (Color.Color red green blue alpha) < 2 ^ 32.
Proof.
  assert (H : Color.toUInt32 (Color.Color red green blue alpha) mod 2 ^ 32
              = Color.toUInt32 (Color.Color red green blue alpha)).
  { unfold Color.toUInt32, Color.Color, CInt.to_uint8. simpl Color.value.
    color_bits. }
  rewrite <- H. apply Z.mod_pos_bound. lia.
Qed.

(** [setPixel] in bounds: the buffer changes at the addressed element
    only. *)
Lemma setPixel_one_pixel (s : Surface.t) (x y : Z) (c : Color.t) :
  wf_surface s -> Surface.isInBounds s x y = true ->
  exists s',
    Surface.setPixel s x y c = Ok s'
    /\ wf_surface s'
    /\ Surface.width s' = Surface.width s
    /\ Surface.height s' = Surface.height s
    /\ pixel_at s' x y = Some (Color.toUInt32 c)
    /\ forall x' y', Surface.isInBounds s x' y' = true ->
                     (x', y') <> (x, y) ->
                     pixel_at s' x' y' = pixel_at s x' y'.
Proof.
  intros Hwf Hin.
  pose proof (setPixel_ok s x y c Hwf Hin) as Hset.
  destruct (setPixel_wf s _ x y c Hwf Hset) as (Hwf' & Hw & Hh).
  destruct (index_exact s x y Hwf Hin) as (_ & Hr & _).
  eexists. split; [exact Hset|]. split; [exact Hwf'|].
  split; [reflexivity|]. split; [reflexivity|].
  unfold pixel_at; simpl. split.
  - apply list_lookup_insert_eq. lia.
  - intros x' y' Hin' Hne.
    destruct (index_exact s x' y' Hwf Hin') as (_ & Hr' & _).
    apply isInBounds_spec in Hin, Hin'.
    apply list_lookup_insert_ne. intros E.
    apply Z2Nat.inj in E; [|lia|lia].
    apply index_injective in E; [|lia|lia|lia|lia].
    apply Hne. f_equal; lia.
Qed.

(** X1.  Whatever integers are passed to the constructor of [Color],
    each accessor returns the corresponding argument reduced to a byte,
    and the packed value fits 32 bits: packing does not mix channels. *)
Theorem Color_channels_roundtrip (red green blue alpha : Z) :
  Color.r (Color.Color red green blue alpha) = red mod 256
  /\ Color.g (Color.Color red green blue alpha) = green mod 256
  /\ Color.b (Color.Color red green blue alpha) = blue mod 256
  /\ Color.a (Color.Color red green blue alpha) = alpha mod 256
  /\ 0 <= Color.toUInt32 (Color.Color red green blue alpha) < 2 ^ 32.
Proof.
  split; [apply Color_r|]. split; [apply Color_g|].
  split; [apply Color_b|]. split; [apply Color_a|].
  apply Color_value_32bit.
Qed.

(** X2.  A colour whose packed value fits 32 bits is rebuilt exactly
    from its four channels. *)
Theorem Color_rebuilt_from_channels (c : Color.t) :
  0 <= Color.toUInt32 c < 2 ^ 32 ->
  Color.Color (Color.r c) (Color.g c) (Color.b c) (Color.a c) = c.
Proof.
  destruct c as [v]. unfold Color.toUInt32; simpl. intros Hv.
  unfold Color.Color, Color.r, Color.g, Color.b, Color.a, CInt.to_uint8.
  simpl Color.value. f_equal.
  rewrite <- (Z.mod_small v (2 ^ 32)) at 5 by lia.
  color_bits.
  all: rewrite ?Z.shiftr_spec, ?testbit_255 by lia.
  all: match goal with
       | |- context [?i <? 8] => rewrite (proj2 (Z.ltb_lt i 8)) by lia
       end.
  all: rewrite andb_true_r; f_equal; lia.
Qed.

Lemma Color_rebuilt_from_channels_witness :
  Color.Color (Color.r Color.Red) (Color.g Color.Red) (Color.b Color.Red)
              (Color.a Color.Red) = Color.Red.
Proof.
  apply Color_rebuilt_from_channels. vm_compute. split; [discriminate | reflexivity].
Defined.

(** X3.  Two colours built by the constructor compare equal exactly
    when their four arguments agree as bytes. *)
Theorem Color_eqb_channels (r1 g1 b1 a1 r2 g2 b2 a2 : Z) :
  Color.eqb (Color.Color r1 g1 b1 a1) (Color.Color r2 g2 b2 a2) = true
  <-> (r1 mod 256 = r2 mod 256 /\ g1 mod 256 = g2 mod 256
       /\ b1 mod 256 = b2 mod 256 /\ a1 mod 256 = a2 mod 256).
Proof.
  unfold Color.eqb. rewrite Z.eqb_eq. split.
  - intros H.
    assert (E : Color.Color r1 g1 b1 a1 = Color.Color r2 g2 b2 a2).
    { destruct (Color.Color r1 g1 b1 a1), (Color.Color r2 g2 b2 a2).
      simpl in H. congruence. }
    pose proof (f_equal Color.r E) as Hr. rewrite !Color_r in Hr.
    pose proof (f_equal Color.g E) as Hg. rewrite !Color_g in Hg.
    pose proof (f_equal Color.b E) as Hb. rewrite !Color_b in Hb.
    pose proof (f_equal Color.a E) as Ha. rewrite !Color_a in Ha.
    unfold CInt.to_uint8 in *. change (2 ^ 8) with 256 in *. auto.
  - intros (Hr & Hg & Hb & Ha). unfold Color.Color, CInt.to_uint8.
    change (2 ^ 8) with 256. rewrite Hr, Hg, Hb, Ha. reflexivity.
Qed.

(** ** surface.cpp: construction, clearing, single pixels *)

(** X4.  For positive dimensions whose product fits [int] the
    constructor succeeds: the surface has the requested width and
    height, one buffer element per pixel, and every pixel holds the
    packed initial colour. *)
Theorem Surface_filled_with_background (w h : Z) (c : Color.t) :
  0 < w -> 0 < h -> w * h <= CInt.INT_MAX ->
  exists s,
    Surface.Surface w h c = Ok s
    /\ Surface.getWidth s = w /\ Surface.getHeight s = h
    /\ Z.of_nat (length (Surface.pixels s)) = w * h
    /\ wf_surface s
    /\ forall x y, 0 <= x < w -> 0 <= y < h ->
                   pixel_at s x y = Some (Color.toUInt32 c).
Proof.
  intros Hw Hh Hmax.
  destruct (Surface_ok w h c Hw Hh Hmax) as (Hok & Hwf).
  eexists. split; [exact Hok|]. split; [reflexivity|]. split; [reflexivity|].
  split; [apply Hwf|]. split; [exact Hwf|].
  intros x y Hx Hy. unfold pixel_at; simpl.
  apply lookup_replicate_2. nia.
Qed.

Lemma Surface_filled_with_background_witness :
  exists s, Surface.Surface 3 2 Color.Blue = Ok s
            /\ pixel_at s 2 1 = Some (Color.toUInt32 Color.Blue).
Proof.
  destruct (Surface_filled_with_background 3 2 Color.Blue)
    as (s & Hok & _ & _ & _ & _ & Hpix).
  - lia.
  - lia.
  - unfold CInt.INT_MAX. lia.
  - exists s. split; [exact Hok|]. apply Hpix; lia.
Defined.

(** X5.  When a dimension is zero or negative the constructor never
    returns a surface: it fails with the dimension message when the
    [int] product of the dimensions is not negative, and with
    [std::length_error] from the buffer allocation when it is. *)
Theorem Surface_rejects_nonpositive (w h : Z) (c : Color.t) :
  CInt.in_int w -> CInt.in_int h -> w <= 0 \/ h <= 0 ->
  Surface.Surface w h c
  = if CInt.mul w h <? 0 then Throws length_error
    else Fatal "Surface dimensions must be positive.".
Proof.
  intros Hw Hh Hneg. destruct (Z.ltb_spec (CInt.mul w h) 0) as [Hlt | Hge].
  - apply Surface_length_error. exact Hlt.
  - apply Surface_dimension_error; assumption.
Qed.

Lemma Surface_rejects_nonpositive_witness :
  Surface.Surface 4 (-3) Color.Black = Throws length_error
  /\ Surface.Surface 4 0 Color.Black
     = Fatal "Surface dimensions must be positive.".
Proof.
  split.
  - apply (Surface_rejects_nonpositive 4 (-3) Color.Black);
      unfold CInt.in_int, CInt.INT_MIN, CInt.INT_MAX; lia.
  - apply (Surface_rejects_nonpositive 4 0 Color.Black);
      unfold CInt.in_int, CInt.INT_MIN, CInt.INT_MAX; lia.
Defined.

(** X6.  In bounds of a well-formed surface, [setPixel] stores the
    packed colour at the addressed pixel and leaves every other pixel,
    the width and the height as they were. *)
Theorem setPixel_changes_one_pixel (s : Surface.t) (x y : Z) (c : Color.t) :
  wf_surface s -> Surface.isInBounds s x y = true ->
  exists s',
    Surface.setPixel s x y c = Ok s'
    /\ wf_surface s'
    /\ Surface.width s' = Surface.width s
    /\ Surface.height s' = Surface.height s
    /\ pixel_at s' x y = Some (Color.toUInt32 c)
    /\ forall x' y', Surface.isInBounds s x' y' = true ->
                     (x', y') <> (x, y) ->
                     pixel_at s' x' y' = pixel_at s x' y'.
Proof. exact (setPixel_one_pixel s x y c). Qed.

Lemma setPixel_changes_one_pixel_witness :
  exists s', Surface.setPixel surface_2x2 1 0 Color.Red = Ok s'
             /\ pixel_at s' 1 0 = Some (Color.toUInt32 Color.Red)
             /\ pixel_at s' 0 1 = Some 3.
Proof.
  destruct (setPixel_changes_one_pixel surface_2x2 1 0 Color.Red
              wf_surface_2x2 eq_refl)
    as (s' & Hset & _ & _ & _ & Hnew & Hold).
  exists s'. split; [exact Hset|]. split; [exact Hnew|].
  rewrite (Hold 0 1 eq_refl); [reflexivity | discriminate].
Defined.

(** X7.  [clear] keeps the size of a well-formed surface and makes
    every pixel the packed colour; clearing twice is clearing with the
    last colour, and for positive dimensions the cleared surface is the
    one the constructor builds for that colour. *)
Theorem clear_fills_surface (s : Surface.t) (c : Color.t) :
  wf_surface s ->
  wf_surface (Surface.clear s c)
  /\ Surface.width (Surface.clear s c) = Surface.width s
  /\ Surface.height (Surface.clear s c) = Surface.height s
  /\ (forall x y, Surface.isInBounds s x y = true ->
                  pixel_at (Surface.clear s c) x y = Some (Color.toUInt32 c))
  /\ (forall c0, Surface.clear (Surface.clear s c0) c = Surface.clear s c)
  /\ (0 < Surface.width s -> 0 < Surface.height s ->
      Surface.Surface (Surface.width s) (Surface.height s) c
      = Ok (Surface.clear s c)).
Proof.
  intros Hwf. pose proof Hwf as (Hw & Hh & Hlen & Hmax).
  split.
  { unfold wf_surface, Surface.clear; simpl. rewrite length_replicate. tauto. }
  split; [reflexivity|]. split; [reflexivity|]. split.
  { intros x y Hin. destruct (index_exact s x y Hwf Hin) as (_ & Hr & _).
    unfold pixel_at, Surface.clear; simpl. apply lookup_replicate_2. lia. }
  split.
  { intros c0. unfold Surface.clear; simpl. rewrite length_replicate.
    reflexivity. }
  intros Hw' Hh'.
  destruct (Surface_ok _ _ c Hw' Hh' Hmax) as (Hok & _).
  rewrite Hok. unfold Surface.clear. do 3 f_equal. lia.
Qed.

Lemma clear_fills_surface_witness :
  pixel_at (Surface.clear surface_2x2 Color.Green) 1 1
  = Some (Color.toUInt32 Color.Green)
  /\ Surface.Surface 2 2 Color.Green = Ok (Surface.clear surface_2x2 Color.Green).
Proof.
  destruct (clear_fills_surface surface_2x2 Color.Green wf_surface_2x2)
    as (_ & _ & _ & Hpix & _ & Hnew).
  split.
  - apply Hpix. reflexivity.
  - apply Hnew; simpl; lia.
Defined.

(** ** surface.cpp: blitting and moving *)



(** X9.  On a well-formed surface, in bounds, reading back the pixel
    just written returns the colour written exactly when that colour is
    opaque black; for any other 32-bit colour [getPixel] returns a
    different one. *)
Theorem getPixel_returns_written_iff_black
    (s : Surface.t) (x y : Z) (c : Color.t) :
  wf_surface s -> Surface.isInBounds s x y = true ->
  0 <= Color.toUInt32 c < 2 ^ 32 ->
  (let* s' := Surface.setPixel s x y c in Surface.getPixel s' x y) = Ok c
  <-> c = Color.Black.
Proof.
  intros Hwf Hin Hc. rewrite (getPixel_after_setPixel s x y c Hwf Hin).
  split.
  - intros H. injection H as H.
    pose proof (f_equal Color.b H) as Hb. rewrite Color_b in Hb.
    change (CInt.to_uint8 0) with 0 in Hb.
    assert (Hlow : CInt.to_uint8 (Color.toUInt32 c) = 0).
    { unfold CInt.to_uint8. rewrite <- Z.land_ones by lia.
      symmetry. exact Hb. }
    rewrite <- H. unfold Color.Color. rewrite Hlow. reflexivity.
  - intros ->. reflexivity.
Qed.

Lemma getPixel_returns_written_iff_black_witness :
  (let* s' := Surface.setPixel surface_2x2 0 0 Color.Black in
   Surface.getPixel s' 0 0) = Ok Color.Black.
Proof.
  apply (getPixel_returns_written_iff_black surface_2x2 0 0 Color.Black).
  - exact wf_surface_2x2.
  - reflexivity.
  - vm_compute. split; [discriminate | reflexivity].
  - reflexivity.
Defined.

Lemma for_each_unchanged {S : Type} (body : Z -> S -> outcome S)
    (range : list Z) (s : S) :
  (forall i, body i s = Ok s) -> for_each body range s = Ok s.
Proof.
  intros Hbody. induction range as [|i rest IH]; simpl; [reflexivity|].
  rewrite Hbody. simpl. exact IH.
Qed.

(** X10.  Moving a surface hands its dimensions and buffer to the new
    object.  The moved-from surface is an empty surface: no coordinate
    is in bounds, so [setPixel] and [getPixel] fail on it everywhere,
    blitting it onto a target leaves the target as it was, and blitting
    any surface onto it leaves it empty. *)
Theorem moved_from_surface_is_empty (s : Surface.t) :
  fst (SurfaceMove.move s) = s
  /\ wf_surface (snd (SurfaceMove.move s))
  /\ (forall x y c,
        Surface.setPixel (snd (SurfaceMove.move s)) x y c
        = Fatal "setPixel() out of bounds."
        /\ Surface.getPixel (snd (SurfaceMove.move s)) x y
           = Fatal "getPixel() out of bounds.")
  /\ (forall target dstX dstY,
        Surface.blitTo (snd (SurfaceMove.move s)) target dstX dstY = Ok target)
  /\ (forall src dstX dstY,
        Surface.blitTo src (snd (SurfaceMove.move s)) dstX dstY
        = Ok (snd (SurfaceMove.move s))).
Proof.
  assert (Hout : forall x y,
             Surface.isInBounds (snd (SurfaceMove.move s)) x y = false).
  { intros x y. apply isInBounds_false. simpl. lia. }
  refine (conj _ (conj _ (conj _ (conj _ _)))).
  - destruct s; reflexivity.
  - unfold wf_surface, CInt.INT_MAX; simpl; lia.
  - intros x y c. unfold Surface.setPixel, Surface.getPixel.
    rewrite Hout. apply conj; reflexivity.
  - intros target dstX dstY. reflexivity.
  - intros src dstX dstY. unfold Surface.blitTo, for_range.
    apply for_each_unchanged. intros y.
    apply for_each_unchanged. intros x.
    unfold Surface.blitPixel. rewrite Hout. reflexivity.
Qed.

(** ** graphics.cpp: allocation and release *)

(** X11.  [destroy] can be repeated: after it no handle is live, a
    second [destroy] makes no call to the driver and changes nothing,
    and the index, width and height are the ones before. *)
Theorem destroy_idempotent (g : Graphics.t) (gl : GL.state) :
  Graphics.destroy_calls (fst (Graphics.destroy g gl)) = []
  /\ handles (fst (Graphics.destroy g gl)) = [0; 0; 0; 0; 0; 0]
  /\ Graphics.destroy (fst (Graphics.destroy g gl)) (snd (Graphics.destroy g gl))
     = Graphics.destroy g gl
  /\ Graphics.currentPBO (fst (Graphics.destroy g gl)) = Graphics.currentPBO g
  /\ Graphics.width (fst (Graphics.destroy g gl)) = Graphics.width g
  /\ Graphics.height (fst (Graphics.destroy g gl)) = Graphics.height g.
Proof.
  refine (conj _ (conj _ (conj _ (conj _ (conj _ _))))); try reflexivity.
  unfold Graphics.destroy, GL.emit. simpl. rewrite app_nil_r. reflexivity.
Qed.





(** ** graphics.cpp: what an upload transfers *)



(** ** app.cpp: the run loop *)

Lemma for_each_preserves {S : Type} (body : Z -> S -> outcome S)
    (P : S -> Prop) (range : list Z) :
  (forall i s s', P s -> body i s = Ok s' -> P s') ->
  forall s s', P s -> for_each body range s = Ok s' -> P s'.
Proof.
  intros Hbody. induction range as [|i rest IH]; simpl; intros s s' HP H.
  - injection H as <-. exact HP.
  - outcome_inv. eapply IH; [|exact H]. eapply Hbody; eassumption.
Qed.

Lemma setPixel_same_size (s s' : Surface.t) (x y : Z) (c : Color.t) :
  Surface.setPixel s x y c = Ok s' ->
  Surface.width s' = Surface.width s /\ Surface.height s' = Surface.height s.
Proof.
  unfold Surface.setPixel. intros H. outcome_inv. subst s'. simpl. tauto.
Qed.

(** [blitTo] never changes the size of its target. *)
Lemma blitTo_same_size (src target target' : Surface.t) (dstX dstY : Z) :
  Surface.blitTo src target dstX dstY = Ok target' ->
  Surface.width target' = Surface.width target
  /\ Surface.height target' = Surface.height target.
Proof.
  unfold Surface.blitTo, for_range.
  apply (for_each_preserves _
           (fun t => Surface.width t = Surface.width target
                     /\ Surface.height t = Surface.height target));
    [|tauto].
  intros y t t' Ht.
  apply (for_each_preserves _
           (fun t => Surface.width t = Surface.width target
                     /\ Surface.height t = Surface.height target));
    [|exact Ht].
  intros x u u' Hu. unfold Surface.blitPixel.
  destruct (Surface.isInBounds u _ _).
  - intros H. outcome_inv. apply setPixel_same_size in H. lia.
  - intros H. injection H as <-. exact Hu.
Qed.

(** No call a callback can make changes the size of the surface, and an
    exit request is never withdrawn. *)
Lemma exec_keeps_surface_size (c : App.call) (a a' : App.t) (s : Surface.t) :
  App.exec c a = Ok a' -> App.surface a = Some s ->
  exists s', App.surface a' = Some s'
             /\ Surface.width s' = Surface.width s
             /\ Surface.height s' = Surface.height s.
Proof.
  intros H Hs. destruct c; simpl in H;
    unfold App.setVSync, App.setSize, App.setPixelSize, App.setTitle,
           App.background, App.drawPixel, App.drawSurface, App.exit in H;
    try rewrite Hs in H; simpl in H; outcome_inv; subst a'; simpl;
    try (rewrite Hs); eauto.
  - apply setPixel_same_size in Hm. eauto.
  - apply blitTo_same_size in Hm. eauto.
Qed.

Lemma exec_keeps_exit (c : App.call) (a a' : App.t) :
  App.exec c a = Ok a' -> App.shouldExit a = true -> App.shouldExit a' = true.
Proof.
  intros H He. destruct c; simpl in H;
    unfold App.setVSync, App.setSize, App.setPixelSize, App.setTitle,
           App.background, App.drawPixel, App.drawSurface, App.exit in H;
    try (destruct (App.surface a) eqn:Hs; simpl in H);
    outcome_inv; subst a'; simpl; rewrite ?Hs; simpl;
    try assumption; reflexivity.
Qed.

Lemma script_keeps_surface_size (cs : list App.call) :
  forall (a a' : App.t) (s : Surface.t),
  App.script cs a = Ok a' -> App.surface a = Some s ->
  exists s', App.surface a' = Some s'
             /\ Surface.width s' = Surface.width s
             /\ Surface.height s' = Surface.height s.
Proof.
  induction cs as [|c cs IH]; simpl; intros a a' s H Hs.
  - injection H as <-. eauto.
  - outcome_inv.
    destruct (exec_keeps_surface_size c a _ s Hm Hs) as (s1 & Hs1 & Hw1 & Hh1).
    destruct (IH _ _ s1 H Hs1) as (s' & Hs' & Hw' & Hh').
    exists s'. split; [exact Hs'|]. lia.
Qed.

Lemma script_keeps_exit (cs : list App.call) :
  forall (a a' : App.t),
  App.script cs a = Ok a' -> App.shouldExit a = true ->
  App.shouldExit a' = true.
Proof.
  induction cs as [|c cs IH]; simpl; intros a a' H He.
  - injection H as <-. exact He.
  - outcome_inv. eapply IH; [exact H|]. eapply exec_keeps_exit; eassumption.
Qed.

Lemma Surface_Ok_inv (w h : Z) (c : Color.t) (s : Surface.t) :
  Surface.Surface w h c = Ok s ->
  0 < w /\ 0 < h /\ Surface.width s = w /\ Surface.height s = h.
Proof.
  unfold Surface.Surface. intros H. outcome_inv. subst s. simpl.
  apply andb_true_iff in Hm0 as (Hw & Hh).
  apply Z.ltb_lt in Hw, Hh. tauto.
Qed.

(** What a successful start of [run] has built. *)
Lemma start_configured (p : platform) (cb : App.callbacks)
    (a : App.t) (gl : GL.state) (st : App.running) :
  App.start p cb a gl = Ok st ->
  exists a1 s w g,
    App.script (App.setup cb (App.with_inSetupPhase true a))
               (App.with_inSetupPhase true a) = Ok a1
    /\ App.surface (App.app st) = Some s
    /\ Surface.Surface (App.width a1) (App.height a1) (App.backgroundColor a1)
       = Ok s
    /\ 0 < App.width a1 /\ 0 < App.height a1
    /\ Surface.width s = App.width a1 /\ Surface.height s = App.height a1
    /\ App.window (App.app st) = Some w
    /\ w = Window.mk true (CInt.mul (App.width a1) (App.pixelSize a1))
                     (CInt.mul (App.height a1) (App.pixelSize a1))
                     (App.title a1) (App.vsyncEnabled a1)
    /\ App.graphics (App.app st) = Some g
    /\ Graphics.width g = App.width a1 /\ Graphics.height g = App.height a1
    /\ Graphics.currentPBO g = 0
    /\ App.inSetupPhase (App.app st) = false
    /\ App.frameCount (App.app st) = App.frameCount a
    /\ App.fpsTimer st = Float.zero /\ App.fpsCounter st = 0
    /\ running_inv st.
Proof.
  unfold App.start. intros H. outcome_inv. subst st.
  match goal with
  | Hs : App.script _ _ = Ok ?a1 |- _ =>
      rename Hs into Hsetup; pose proof (script_same_private _ _ _ Hsetup)
        as (_ & _ & _ & Hfc & _)
  end.
  match goal with
  | Hs : Surface.Surface _ _ _ = Ok ?s |- _ =>
      rename Hs into Hsurf;
      pose proof (Surface_Ok_inv _ _ _ _ Hsurf) as (Hw & Hh & Ew & Eh)
  end.
  simpl in Hsurf, Hw, Hh, Ew, Eh, Hfc.
  match goal with
  | Hi : Graphics.initialize _ _ _ _ = Ok ?r |- _ =>
      destruct r as [g gl']; apply initialize_index in Hi
        as (Hidx & _ & Hgw & Hgh)
  end.
  match goal with
  | Hw : Window.create _ _ _ _ _ _ = Ok ?w |- _ =>
      unfold Window.create in Hw; outcome_inv; subst w
  end.
  match goal with
  | Hi : Input.initialize _ _ = Ok _ |- _ => clear Hi
  end.
  simpl in *.
  eexists _, _, _, g.
  refine (conj Hsetup (conj eq_refl (conj Hsurf (conj Hw (conj Hh
            (conj Ew (conj Eh (conj eq_refl (conj _ (conj eq_refl
            (conj _ (conj _ (conj Hidx (conj eq_refl (conj Hfc
            (conj eq_refl (conj eq_refl _))))))))))))))))).
  - unfold Surface.getWidth, Surface.getHeight in *.
    match goal with
    | H : glfwCreateWindow _ _ _ _ = true |- _ => rewrite H
    end. rewrite Ew, Eh. reflexivity.
  - congruence.
  - congruence.
  - unfold running_inv; simpl. eexists _, g, _.
    repeat (apply conj; [reflexivity|]).
    refine (conj _ (conj _ _)); [congruence | congruence | left; exact Hidx].
Qed.

(** X15.  When the start of [run] succeeds, the setup callback has
    returned and the run is built from the configuration it left: the
    surface has the configured width and height, both positive, and is
    the one the constructor builds for the background colour; the
    window is created at width x pixelSize by height x pixelSize with
    the configured title and vsync flag; the pipeline has the surface's
    dimensions and index 0; the setup flag is down, the frame counter
    is untouched and both frame-rate accumulators are zero. *)
Theorem start_builds_configured_run (p : platform) (cb : App.callbacks)
    (a : App.t) (gl : GL.state) (st : App.running) :
  App.start p cb a gl = Ok st ->
  exists a1 s w g,
    App.script (App.setup cb (App.with_inSetupPhase true a))
               (App.with_inSetupPhase true a) = Ok a1
    /\ App.surface (App.app st) = Some s
    /\ Surface.Surface (App.width a1) (App.height a1) (App.backgroundColor a1)
       = Ok s
    /\ 0 < App.width a1 /\ 0 < App.height a1
    /\ Surface.width s = App.width a1 /\ Surface.height s = App.height a1
    /\ App.window (App.app st) = Some w
    /\ w = Window.mk true (CInt.mul (App.width a1) (App.pixelSize a1))
                     (CInt.mul (App.height a1) (App.pixelSize a1))
                     (App.title a1) (App.vsyncEnabled a1)
    /\ App.graphics (App.app st) = Some g
    /\ Graphics.width g = App.width a1 /\ Graphics.height g = App.height a1
    /\ Graphics.currentPBO g = 0
    /\ App.inSetupPhase (App.app st) = false
    /\ App.frameCount (App.app st) = App.frameCount a
    /\ App.fpsTimer st = Float.zero /\ App.fpsCounter st = 0
    /\ running_inv st.
Proof. exact (start_configured p cb a gl st). Qed.

Lemma start_builds_configured_run_witness :
  exists s, App.surface (App.app (state_of (App.start platform_ok app_draws
                                              App.App gl_fresh))) = Some s
            /\ Surface.width s = 2 /\ Surface.height s = 2.
Proof.
  destruct (start_builds_configured_run platform_ok app_draws App.App gl_fresh
              (state_of (App.start platform_ok app_draws App.App gl_fresh)))
    as (a1 & s & w & g & Hsetup & Hs & _ & _ & _ & Hw & Hh & _).
  - vm_compute. reflexivity.
  - exists s. vm_compute in Hsetup. injection Hsetup as <-.
    apply conj; [exact Hs|]. apply conj; [exact Hw | exact Hh].
Defined.

(** X16.  At a loop head of a run (input, pipeline and surface exist,
    the pipeline has the surface's size), an iteration fails exactly as
    its [update] callback fails; when the callback returns, the
    iteration can only stop at a mapping the driver refuses, never at a
    size mismatch or a missing subsystem.  Otherwise it completes: the
    frame counter has advanced by one (modulo 2^64), the surface is the
    one the callback left, the frame ends with the buffer swap, and the
    next loop head is in the same situation. *)
Theorem frame_completes_after_update (p : platform) (cb : App.callbacks)
    (inp : App.frame_input) (st : App.running) :
  running_inv st ->
  match App.script (App.update cb (before_update inp st))
                   (before_update inp st) with
  | Ok a' =>
      (App.frame p cb inp st = Fatal "PBO mapping failed."
       /\ exists tr, GL.map_buffer (gl_driver p) tr = false)
      \/ exists st',
           App.frame p cb inp st = Ok st'
           /\ running_inv st'
           /\ App.frameCount (App.app st')
              = CInt.to_uint64 (App.frameCount (App.app st) + 1)
           /\ App.surface (App.app st') = App.surface a'
           /\ App.shouldExit (App.app st') = App.shouldExit a'
           /\ last (GL.trace (App.gl st')) = Some GL.SwapBuffers
  | Fatal msg => App.frame p cb inp st = Fatal msg
  | Throws e => App.frame p cb inp st = Throws e
  | Undefined u => App.frame p cb inp st = Undefined u
  end.
Proof.
  intros (i & g & s & Hi & Hg & Hs & Hgw & Hgh & Hidx).
  unfold App.frame, before_update. simpl. rewrite Hi. simpl.
  set (a0 := App.with_input _ _).
  destruct (App.script (App.update cb a0) a0) as [a' | | |] eqn:Hscript;
    simpl; try reflexivity.
  pose proof (script_same_private _ _ _ Hscript)
    as (_ & _ & _ & Hfc & Hin & Hgr & _).
  destruct (script_keeps_surface_size _ _ _ s Hscript)
    as (s' & Hs' & Hw' & Hh'); [exact Hs|].
  simpl in Hfc, Hin, Hgr.
  rewrite Hgr, Hg, Hs'. simpl.
  destruct (upload_flips (gl_driver p) g s' (App.gl st) Hidx)
    as [(Hfail & Hwhy)
       | (g1 & chunk & Hup & Hc1 & _ & _ & Hw1 & Hh1 & _)].
  { unfold Surface.getWidth. lia. }
  { unfold Surface.getHeight. lia. }
  { left. rewrite Hfail. apply conj; [reflexivity | exact Hwhy]. }
  right. rewrite Hup. simpl.
  assert (Hinv : exists i g s,
             App.input a' = Some i /\ Some g1 = Some g
             /\ App.surface a' = Some s
             /\ Graphics.width g = Surface.width s
             /\ Graphics.height g = Surface.height s
             /\ (Graphics.currentPBO g = 0 \/ Graphics.currentPBO g = 1)).
  { eexists _, g1, s'.
    apply conj; [exact Hin|]. apply conj; [reflexivity|].
    apply conj; [exact Hs'|].
    refine (conj _ (conj _ _)); lia. }
  destruct (Float.ge _ _); eexists; (apply conj; [reflexivity|]);
    unfold running_inv; simpl;
    (apply conj; [exact Hinv|]);
    (apply conj; [rewrite Hfc; reflexivity|]);
    (apply conj; [first [reflexivity | exact Hs' | symmetry; exact Hs']|]);
    (apply conj; [reflexivity|]);
    apply last_snoc.
Qed.

Lemma frame_completes_after_update_witness :
  exists st',
    App.frame platform_ok app_draws (frame_after f0_5) (state_of two_frames)
    = Ok st'
    /\ App.frameCount (App.app st') = 3.
Proof.
  pose proof (frame_completes_after_update platform_ok app_draws
                (frame_after f0_5) (state_of two_frames)) as H.
  assert (Hinv : running_inv (state_of two_frames)).
  { vm_compute. eexists _, _, _.
    repeat (apply conj; [reflexivity|]). left. reflexivity. }
  specialize (H Hinv).
  destruct (App.script _ _) as [a' | | |] in H.
  - destruct H as [(_ & tr & Hno) | (st' & Hframe & _ & Hfc & _)].
    + discriminate Hno.
    + exists st'. apply conj; [exact Hframe|]. rewrite Hfc. reflexivity.
  - exfalso. vm_compute in H. discriminate H.
  - exfalso. vm_compute in H. discriminate H.
  - exfalso. vm_compute in H. discriminate H.
Defined.

Lemma frame_Ok_inv (p : platform) (cb : App.callbacks)
    (inp : App.frame_input) (st st' : App.running) :
  App.frame p cb inp st = Ok st' ->
  exists a',
    App.script (App.update cb (before_update inp st)) (before_update inp st)
    = Ok a'
    /\ App.frameCount (App.app st')
       = CInt.to_uint64 (App.frameCount (App.app st) + 1)
    /\ App.shouldExit (App.app st') = App.shouldExit a'
    /\ (App.shouldExit (App.app st) = true ->
        App.shouldExit (App.app st') = true).
Proof.
  unfold App.frame, before_update. intros H. outcome_inv.
  simpl in Hm. apply (f_equal (fun o => match o with Ok x => Some x | _ => None end))
    in Hm as Hin.
  destruct (App.input (App.app st)) as [i|] eqn:Hi; [|discriminate Hm].
  simpl in Hm. injection Hm as <-.
  match goal with
  | Hs : App.script _ _ = Ok ?a |- _ =>
      exists a; pose proof (script_same_private _ _ _ Hs)
        as (_ & _ & _ & Hfc & _);
      pose proof (fun E => script_keeps_exit _ _ _ Hs E) as Hexit;
      apply conj; [exact Hs|]
  end.
  simpl in Hfc, Hexit.
  destruct (Float.ge _ _); injection H as <-; simpl;
    (apply conj; [rewrite Hfc; reflexivity|]);
    (apply conj; [reflexivity | exact Hexit]).
Qed.

Lemma loop_counts_frames (p : platform) (cb : App.callbacks)
    (inputs : list App.frame_input) :
  forall st st',
  App.loop p cb inputs st = Ok st' ->
  Forall (fun inp => App.close inp = false) inputs ->
  App.shouldExit (App.app st') = false ->
  0 <= App.frameCount (App.app st) < 2 ^ 64 ->
  App.frameCount (App.app st')
  = (App.frameCount (App.app st) + Z.of_nat (length inputs)) mod 2 ^ 64.
Proof.
  induction inputs as [|inp rest IH]; simpl; intros st st' Hloop Hopen Hrun Hfc.
  - injection Hloop as <-. rewrite Z.add_0_r, Z.mod_small; [reflexivity | lia].
  - apply Forall_cons in Hopen as (Hinp & Hopen). rewrite Hinp in Hloop.
    destruct (App.shouldExit (App.app st)) eqn:Hexit; simpl in Hloop.
    { injection Hloop as <-. congruence. }
    outcome_inv.
    destruct (frame_Ok_inv _ _ _ _ _ Hm) as (a' & _ & Hfc1 & _ & _).
    rewrite (IH _ _ Hloop Hopen Hrun).
    + rewrite Hfc1. unfold CInt.to_uint64.
      rewrite Z.add_mod_idemp_l by lia. f_equal. lia.
    + rewrite Hfc1. unfold CInt.to_uint64. apply Z.mod_pos_bound. lia.
Qed.

(** X17.  The frame counter counts completed iterations: if a run has
    gone through inputs none of which reported a close request, and no
    exit has been requested by its end, then every one of them was an
    iteration and the counter has advanced by their number (modulo
    2^64) since the start. *)
Theorem frame_counter_counts_frames (p : platform) (cb : App.callbacks)
    (inputs : list App.frame_input) (a : App.t) (gl : GL.state)
    (st : App.running) :
  App.running_after p cb inputs a gl = Ok st ->
  Forall (fun inp => App.close inp = false) inputs ->
  App.shouldExit (App.app st) = false ->
  0 <= App.frameCount a < 2 ^ 64 ->
  App.frameCount (App.app st)
  = (App.frameCount a + Z.of_nat (length inputs)) mod 2 ^ 64.
Proof.
  unfold App.running_after. intros H Hopen Hrun Hfc. outcome_inv.
  destruct (start_configured _ _ _ _ _ Hm)
    as (a1 & s & w & g & _ & _ & _ & _ & _ & _ & _ & _ & _ & _ & _ & _ & _
        & _ & Hfc0 & _).
  rewrite <- Hfc0. apply (loop_counts_frames p cb inputs _ _ H Hopen Hrun).
  rewrite Hfc0. exact Hfc.
Qed.

Lemma frame_counter_counts_frames_witness :
  App.frameCount (App.app (state_of two_frames)) = 2.
Proof.
  apply (frame_counter_counts_frames platform_ok app_draws
           [frame_after f0_5; frame_after f0_25] App.App gl_fresh
           (state_of two_frames)).
  - vm_compute. reflexivity.
  - repeat constructor.
  - vm_compute. reflexivity.
  - vm_compute. split; [discriminate | reflexivity].
Defined.




(** ** app.cpp: what the getters report before and after the start *)

(** X19.  For an application that has no window and no surface yet, the
    sizes and the title the getters report at the end of [setup]
    (computed from the configuration) are the ones they report once the
    run has started (read from the surface and the window then
    built). *)
Theorem getters_agree_across_start (p : platform) (cb : App.callbacks)
    (a : App.t) (gl : GL.state) (st : App.running) :
  App.window a = None -> App.surface a = None ->
  App.start p cb a gl = Ok st ->
  exists a1,
    App.script (App.setup cb (App.with_inSetupPhase true a))
               (App.with_inSetupPhase true a) = Ok a1
    /\ App.getWidth (App.app st) = App.getWidth a1
    /\ App.getHeight (App.app st) = App.getHeight a1
    /\ AppInfo.getWindowWidth (App.app st) = AppInfo.getWindowWidth a1
    /\ AppInfo.getWindowHeight (App.app st) = AppInfo.getWindowHeight a1
    /\ AppInfo.getTitle (App.app st) = AppInfo.getTitle a1
    /\ App.getPixelSize (App.app st) = App.getPixelSize a1.
Proof.
  intros Hwin Hsurf Hstart.
  destruct (start_configured _ _ _ _ _ Hstart)
    as (a1 & s & w & g & Hsetup & Hs & _ & _ & _ & Ew & Eh & Hw & -> & _).
  pose proof (script_same_private _ _ _ Hsetup)
    as (_ & _ & _ & _ & _ & _ & Hwin1 & Hsurf1).
  simpl in Hwin1, Hsurf1. rewrite Hwin in Hwin1. specialize (Hsurf1 Hsurf).
  exists a1. apply conj; [exact Hsetup|].
  unfold App.getWidth, App.getHeight, AppInfo.getWindowWidth,
    AppInfo.getWindowHeight, AppInfo.getTitle, App.getPixelSize.
  rewrite Hs, Hw, Hwin1, Hsurf1. simpl.
  unfold Surface.getWidth, Surface.getHeight. rewrite Ew, Eh.
  repeat (apply conj; [reflexivity|]).
  unfold App.start in Hstart. outcome_inv. subst st. simpl.
  match goal with
  | Hs : App.script _ _ = Ok _ |- _ =>
      rewrite Hsetup in Hs; injection Hs as <-
  end.
  reflexivity.
Qed.

Lemma getters_agree_across_start_witness :
  AppInfo.getWindowWidth
    (App.app (state_of (App.start platform_ok app_draws App.App gl_fresh)))
  = 6.
Proof.
  destruct (getters_agree_across_start platform_ok app_draws App.App gl_fresh
              (state_of (App.start platform_ok app_draws App.App gl_fresh)))
    as (a1 & Hsetup & _ & _ & Hww & _).
  - reflexivity.
  - reflexivity.
  - vm_compute. reflexivity.
  - rewrite Hww. vm_compute in Hsetup. injection Hsetup as <-. reflexivity.
Defined.

(** X20.  [isVSyncEnabled] reads the window without checking that it
    exists.  For an application that has no window yet it is undefined
    at every point of [setup], and so is [isRunning] unless an exit was
    already requested; once the run has started it returns the vsync
    flag left by [setup]. *)
Theorem isVSyncEnabled_needs_window (p : platform) (cb : App.callbacks)
    (a : App.t) (gl : GL.state) (st : App.running) :
  App.window a = None ->
  App.start p cb a gl = Ok st ->
  (forall k b closing,
      App.script (take k (App.setup cb (App.with_inSetupPhase true a)))
                 (App.with_inSetupPhase true a) = Ok b ->
      AppInfo.isVSyncEnabled b = Undefined NullDereference
      /\ AppInfo.isRunning b closing
         = if App.shouldExit b then Ok false
           else Undefined NullDereference)
  /\ exists a1,
       App.script (App.setup cb (App.with_inSetupPhase true a))
                  (App.with_inSetupPhase true a) = Ok a1
       /\ AppInfo.isVSyncEnabled (App.app st) = Ok (App.vsyncEnabled a1).
Proof.
  intros Hwin Hstart. apply conj.
  - intros k b closing Hscript.
    pose proof (script_same_private _ _ _ Hscript)
      as (_ & _ & _ & _ & _ & _ & Hwin1 & _).
    simpl in Hwin1. rewrite Hwin in Hwin1.
    unfold AppInfo.isVSyncEnabled, AppInfo.isRunning. rewrite Hwin1. simpl.
    destruct (App.shouldExit b); apply conj; reflexivity.
  - destruct (start_configured _ _ _ _ _ Hstart)
      as (a1 & s & w & g & Hsetup & _ & _ & _ & _ & _ & _ & Hw & -> & _).
    exists a1. apply conj; [exact Hsetup|].
    unfold AppInfo.isVSyncEnabled. rewrite Hw. reflexivity.
Qed.

Lemma isVSyncEnabled_needs_window_witness :
  AppInfo.isVSyncEnabled
    (App.with_vsyncEnabled false
       (App.with_size 2 2 (App.with_inSetupPhase true App.App)))
  = Undefined NullDereference.
Proof.
  refine (proj1 (proj1 (isVSyncEnabled_needs_window platform_ok app_no_vsync
            App.App gl_fresh
            (state_of (App.start platform_ok app_no_vsync App.App gl_fresh))
            _ _)
           2%nat _ true _)).
  - reflexivity.
  - vm_compute. reflexivity.
  - reflexivity.
Defined.

(** ** math.h: the integer ping-pong and the sign *)

(** Removes a conversion to [int] whose argument is in range. *)
Ltac int_exact :=
  repeat match goal with
  | |- context [CInt.to_int ?z] =>
      rewrite (to_int_small z)
        by (unfold CInt.in_int, CInt.INT_MIN, CInt.INT_MAX in *; lia)
  end.

(** X21.  For [min < max], a non-negative [t] and a period
    [2 * (max - min)] that fits [int], the integer [pingpong] returns a
    value between [min] and [max]: with [m] the remainder of [t] by the
    period, it climbs from [min] as [min + m] while [m <= max - min]
    and comes back down as [max - (m - (max - min))] after that. *)
Theorem pingpong_triangle_wave (t min max : Z) :
  min < max -> 0 <= t ->
  CInt.in_int t -> CInt.in_int min -> CInt.in_int max ->
  2 * (max - min) <= CInt.INT_MAX ->
  exists r,
    Math.pingpong t min max = Ok r
    /\ min <= r <= max
    /\ r = (let m := t mod (2 * (max - min)) in
            if m <=? max - min then min + m else max - (m - (max - min))).
Proof.
  intros Hlt Ht Hti Hmin Hmax Hperiod.
  pose proof (Z.mod_pos_bound t (2 * (max - min)) ltac:(lia)) as Hm.
  unfold Math.pingpong, Math.sub, Math.abs, Math.int_rem, CInt.mul, CInt.add,
    CInt.rem.
  int_exact.
  destruct (Z.eqb_spec (2 * (max - min)) 0) as [E|_]; [lia|]. simpl.
  rewrite Z.rem_mod_nonneg by lia.
  int_exact.
  eexists. apply conj; [reflexivity|]. simpl.
  destruct (Z.leb_spec (t mod (2 * (max - min))) (max - min)); lia.
Qed.

Lemma pingpong_triangle_wave_witness :
  exists r, Math.pingpong 13 0 10 = Ok r /\ 0 <= r <= 10.
Proof.
  destruct (pingpong_triangle_wave 13 0 10) as (r & Hr & Hb & _);
    try (unfold CInt.in_int, CInt.INT_MIN, CInt.INT_MAX; lia).
  exists r. apply conj; [exact Hr | exact Hb].
Defined.

(** X22.  The integer [pingpong] outside that domain.  With
    [min = max] the period is 0 and the remainder is undefined.  With a
    negative [t] (and no overflow) the remainder keeps the sign of [t],
    so the result is [min] plus that remainder: never above [min], and
    below it unless [t] is a multiple of the period. *)
Theorem pingpong_outside_domain (t min max : Z) :
  CInt.in_int t -> CInt.in_int min -> CInt.in_int max ->
  (min = max -> Math.pingpong t min max = Undefined DivisionByZero)
  /\ (min < max -> t < 0 ->
      3 * (max - min) <= CInt.INT_MAX ->
      CInt.INT_MIN <= min - 2 * (max - min) ->
      Math.pingpong t min max = Ok (min + Z.rem t (2 * (max - min)))
      /\ min - 2 * (max - min) < min + Z.rem t (2 * (max - min)) <= min).
Proof.
  intros Hti Hmin Hmax. apply conj.
  - intros ->. unfold Math.pingpong, Math.sub, Math.int_rem, CInt.mul.
    rewrite Z.sub_diag. reflexivity.
  - intros Hlt Ht Hperiod Hlow.
    pose proof (Z.rem_bound_pos_neg t (2 * (max - min)) ltac:(lia) ltac:(lia))
      as Hm.
    unfold Math.pingpong, Math.sub, Math.abs, Math.int_rem, CInt.mul, CInt.add,
      CInt.rem.
    int_exact.
    destruct (Z.eqb_spec (2 * (max - min)) 0) as [E|_]; [lia|]. simpl.
    int_exact.
    apply conj; [f_equal; lia | lia].
Qed.

Lemma pingpong_outside_domain_witness :
  Math.pingpong 4 7 7 = Undefined DivisionByZero
  /\ Math.pingpong (-15) 0 10 = Ok (-15).
Proof.
  apply conj.
  - apply (pingpong_outside_domain 4 7 7);
      try (unfold CInt.in_int, CInt.INT_MIN, CInt.INT_MAX; lia).
  - apply (pingpong_outside_domain (-15) 0 10);
      try (unfold CInt.in_int, CInt.INT_MIN, CInt.INT_MAX; lia).
Defined.

(** X23.  [signOrZero] returns exactly -1, 0 or 1 as a [float]: 0 for
    both zeros and for a NaN, otherwise 1 with the sign of its
    argument, infinities included. *)
Theorem signOrZero_values (v : Float.t) :
  Math.signOrZero v
  = match v with
    | S754_zero _ | S754_nan => Float.zero
    | S754_infinity s | S754_finite s _ _ => S754_finite s 8388608 (-23)
    end.
Proof. destruct v as [s | s | | s m e]; try destruct s; reflexivity. Qed.

(** ** The example applications *)

Lemma painted_equiv (s0 : Surface.t) (color : Z -> Z -> Color.t)
    (C C' : Z -> Z -> Prop) (s : Surface.t) :
  (forall x y, Surface.isInBounds s0 x y = true -> (C x y <-> C' x y)) ->
  painted s0 color C s -> painted s0 color C' s.
Proof.
  intros Heq (Hwf & Hw & Hh & Hpix).
  refine (conj Hwf (conj Hw (conj Hh _))).
  intros x y Hb. destruct (Hpix x y Hb) as (Hcov & Hkeep). apply conj.
  - intros Hc. apply Hcov, (Heq x y Hb), Hc.
  - intros Hc. apply Hkeep. rewrite (Heq x y Hb). exact Hc.
Qed.

(** One more pixel painted through [App::drawPixel]. *)
Lemma painted_step (a : App.t) (s0 s : Surface.t) (color : Z -> Z -> Color.t)
    (C : Z -> Z -> Prop) (x y : Z) :
  Surface.isInBounds s0 x y = true ->
  painted s0 color C s ->
  exists s',
    App.drawPixel (App.with_surface (Some s) a) x y (color x y)
    = Ok (App.with_surface (Some s') a)
    /\ painted s0 color (fun cx cy => C cx cy \/ (cx = x /\ cy = y)) s'.
Proof.
  intros Hin (Hwf & Hw & Hh & Hpix).
  assert (Hin' : Surface.isInBounds s x y = true).
  { rewrite (isInBounds_same_size s s0) by assumption. exact Hin. }
  destruct (setPixel_one_pixel s x y (color x y) Hwf Hin')
    as (s' & Hset & Hwf' & Hw' & Hh' & Hnew & Hold).
  exists s'. apply conj.
  { unfold App.drawPixel. simpl. rewrite Hset. reflexivity. }
  refine (conj Hwf' (conj _ (conj _ _))); [congruence | congruence |].
  intros cx cy Hb.
  assert (Hb' : Surface.isInBounds s cx cy = true).
  { rewrite (isInBounds_same_size s s0) by assumption. exact Hb. }
  destruct (Hpix cx cy Hb) as (Hcov & Hkeep).
  destruct (Z.eq_dec cx x) as [-> | Ex];
    [destruct (Z.eq_dec cy y) as [-> | Ey]|].
  - apply conj; intros H; [exact Hnew | exfalso; apply H; right; auto].
  - rewrite (Hold x cy Hb') by congruence. apply conj; intros H.
    + destruct H as [H | (_ & H)]; [auto | contradiction].
    + apply Hkeep. tauto.
  - rewrite (Hold cx cy Hb') by congruence. apply conj; intros H.
    + destruct H as [H | (H & _)]; [auto | contradiction].
    + apply Hkeep. tauto.
Qed.

(** Painting every pixel of the surface through [App::drawPixel], row
    by row as the examples do. *)
Lemma paint_all_pixels (a : App.t) (s : Surface.t)
    (color : Z -> Z -> Color.t) :
  App.surface a = Some s -> wf_surface s ->
  exists s',
    for_range (Surface.height s)
      (fun y => for_range (Surface.width s)
                  (fun x a0 => App.drawPixel a0 x y (color x y)))
      a
    = Ok (App.with_surface (Some s') a)
    /\ painted s color (fun _ _ => True) s'.
Proof.
  intros Hs Hwf.
  assert (Ha : a = App.with_surface (Some s) a).
  { destruct a; simpl in *. subst. reflexivity. }
  unfold for_range at 1.
  destruct (for_each_invariant
              (fun y => for_range (Surface.width s)
                          (fun x a0 => App.drawPixel a0 x y (color x y)))
              (fun visited a0 =>
                 exists s1, a0 = App.with_surface (Some s1) a
                            /\ painted s color
                                 (fun cx cy => cy ∈ visited) s1)
              (seqZ 0 (Surface.height s)) [] a)
    as (a' & Hloop & s' & -> & Hinv).
  - exists s. apply conj; [exact Ha|].
    refine (conj Hwf (conj eq_refl (conj eq_refl _))).
    intros x y _. apply conj; [|reflexivity].
    intros H. apply elem_of_nil in H. contradiction.
  - intros visited y a0 Hy (s1 & -> & Hrow). apply elem_of_seqZ in Hy.
    unfold for_range.
    destruct (for_each_invariant
                (fun x a0 => App.drawPixel a0 x y (color x y))
                (fun done a0 =>
                   exists s2, a0 = App.with_surface (Some s2) a
                              /\ painted s color
                                   (fun cx cy => cy ∈ visited
                                                 \/ (cx ∈ done /\ cy = y)) s2)
                (seqZ 0 (Surface.width s)) [] (App.with_surface (Some s1) a))
      as (a2 & Hloop & s2 & -> & Hinv).
    + exists s1. apply conj; [reflexivity|].
      eapply painted_equiv; [|exact Hrow].
      intros cx cy _. split; [auto|]. intros [H | (H & _)]; [exact H|].
      apply elem_of_nil in H. contradiction.
    + intros done x a0 Hx (s2 & -> & Hcell). apply elem_of_seqZ in Hx.
      assert (Hin : Surface.isInBounds s x y = true)
        by (apply isInBounds_spec; lia).
      destruct (painted_step a s s2 color _ x y Hin Hcell)
        as (s3 & Hdraw & Hcell').
      exists (App.with_surface (Some s3) a). apply conj; [exact Hdraw|].
      exists s3. apply conj; [reflexivity|].
      eapply painted_equiv; [|exact Hcell'].
      intros cx cy _. rewrite elem_of_app, list_elem_of_singleton. tauto.
    + exists (App.with_surface (Some s2) a). apply conj; [exact Hloop|].
      exists s2. apply conj; [reflexivity|].
      eapply painted_equiv; [|exact Hinv].
      intros cx cy Hb. apply isInBounds_spec in Hb. simpl.
      rewrite elem_of_app, list_elem_of_singleton, elem_of_seqZ.
      split; intros [H | H]; auto; right; [exact (proj2 H)|].
      split; [lia | exact H].
  - exists s'. apply conj; [exact Hloop|].
    eapply painted_equiv; [|exact Hinv].
    intros cx cy Hb. apply isInBounds_spec in Hb. simpl.
    rewrite elem_of_seqZ. split; [trivial | lia].
Qed.

(** X24.  [PixelNoise::update] on an application with a well-formed
    surface never draws out of bounds: it returns, the surface keeps
    its size, every pixel holds the opaque colour made of the three low
    bytes of [pseudoRandom(x, y, frame)], and nothing else of the
    application changes. *)
Theorem noise_update_fills_surface (a : App.t) (s : Surface.t) :
  App.surface a = Some s -> wf_surface s ->
  exists s',
    PixelNoise.update a = Ok (App.with_surface (Some s') a)
    /\ wf_surface s'
    /\ Surface.width s' = Surface.width s
    /\ Surface.height s' = Surface.height s
    /\ forall x y,
         0 <= x < Surface.width s -> 0 <= y < Surface.height s ->
         pixel_at s' x y
         = Some (Color.toUInt32
                   (PixelNoise.noise x y (App.frameCount a)))
         /\ Color.a (PixelNoise.noise x y (App.frameCount a)) = 255.
Proof.
  intros Hs Hwf.
  destruct (paint_all_pixels a s
              (fun x y => PixelNoise.noise x y (App.frameCount a)) Hs Hwf)
    as (s' & Hloop & Hwf' & Hw & Hh & Hpix).
  exists s'. unfold PixelNoise.update, App.getWidth, App.getHeight,
    App.getFrameCount. rewrite Hs.
  refine (conj Hloop (conj Hwf' (conj Hw (conj Hh _)))).
  intros x y Hx Hy. apply conj.
  - apply Hpix; [apply isInBounds_spec; lia | trivial].
  - unfold PixelNoise.noise. apply Color_a.
Qed.

Lemma noise_update_fills_surface_witness :
  exists s',
    PixelNoise.update
      (App.app (state_of (App.start platform_ok app_draws App.App gl_fresh)))
    = Ok (App.with_surface (Some s')
            (App.app (state_of (App.start platform_ok app_draws App.App
                                          gl_fresh))))
    /\ pixel_at s' 1 1 = Some (Color.toUInt32 (PixelNoise.noise 1 1 0)).
Proof.
  destruct (noise_update_fills_surface
              (App.app (state_of (App.start platform_ok app_draws App.App
                                            gl_fresh)))
              (Surface.mk 2 2 (replicate 4 (Color.toUInt32 Color.Black))))
    as (s' & Hupdate & _ & _ & _ & Hpix).
  - vm_compute. reflexivity.
  - unfold wf_surface, CInt.INT_MAX; simpl; lia.
  - exists s'. apply conj; [exact Hupdate|].
    apply (Hpix 1 1); simpl; lia.
Defined.



(** ** Bresenham's line of the square example *)

Lemma between_step (p s d n : Z) :
  s = 1 \/ s = -1 -> 0 <= n <= d -> between p (p + s * d) (p + s * n).
Proof. unfold between. intros [-> | ->] H; lia. Qed.

Lemma line_error_bound (dx dy nx ny : Z) :
  0 <= nx <= dx -> 0 <= ny <= dy ->
  - ((dx + 1) * (dy + 1)) <= (1 + ny) * dx - (1 + nx) * dy
    <= (dx + 1) * (dy + 1)
  /\ dx <= (dx + 1) * (dy + 1) /\ dy <= (dx + 1) * (dy + 1).
Proof. intros Hx Hy. nia. Qed.

Lemma line_step_x (dx dy nx ny : Z) :
  0 <= nx <= dx -> 0 <= ny <= dy -> ~ (nx = dx /\ ny = dy) ->
  - dy < 2 * ((1 + ny) * dx - (1 + nx) * dy) -> nx < dx.
Proof.
  intros Hx Hy Hnot Hstep.
  destruct (Z.eq_dec nx dx) as [-> |]; [|lia].
  assert (0 <= dx * (dy - ny - 1)) by nia. nia.
Qed.

Lemma line_step_y (dx dy nx ny : Z) :
  0 <= nx <= dx -> 0 <= ny <= dy -> ~ (nx = dx /\ ny = dy) ->
  2 * ((1 + ny) * dx - (1 + nx) * dy) < dx -> ny < dy.
Proof.
  intros Hx Hy Hnot Hstep.
  destruct (Z.eq_dec ny dy) as [-> |]; [|lia].
  assert (0 <= dy * (dx - nx - 1)) by nia. nia.
Qed.

Section Bresenham.

Variable a : App.t.
Variable s0 : Surface.t.
Variables x0 y0 x1 y1 dx dy sx sy : Z.
Variable c : Color.t.

Hypothesis Hwf0 : wf_surface s0.
Hypothesis Hstart : Surface.isInBounds s0 x0 y0 = true.
Hypothesis Hend : Surface.isInBounds s0 x1 y1 = true.
Hypothesis Hsx : sx = 1 \/ sx = -1.
Hypothesis Hsy : sy = 1 \/ sy = -1.
Hypothesis Hx1 : x1 = x0 + sx * dx.
Hypothesis Hy1 : y1 = y0 + sy * dy.
Hypothesis Hsmall : 4 * ((dx + 1) * (dy + 1)) <= CInt.INT_MAX.

(** The loop of [drawLine] after [nx] steps along x and [ny] steps
    along y: it reaches the end point within [dx - nx + dy - ny] further
    iterations, drawing only inside the rectangle of the end points. *)
Lemma drawLine_loop_finishes (k : nat) :
  forall (fuel : nat) (nx ny : Z) (s : Surface.t) (C : Z -> Z -> Prop),
  (dx - nx) + (dy - ny) <= Z.of_nat k -> (k < fuel)%nat ->
  0 <= nx <= dx -> 0 <= ny <= dy ->
  painted s0 (fun _ _ => c) C s ->
  (forall cx cy, C cx cy -> between x0 x1 cx /\ between y0 y1 cy) ->
  (forall cx cy, C cx cy \/ ~ C cx cy) ->
  (nx = 0 /\ ny = 0) \/ C x0 y0 ->
  exists s' C',
    PixelSquare.drawLine_loop fuel (App.with_surface (Some s) a)
      (x0 + sx * nx) (y0 + sy * ny) ((1 + ny) * dx - (1 + nx) * dy)
      x1 y1 dx dy sx sy c
    = Ok (Some (App.with_surface (Some s') a))
    /\ painted s0 (fun _ _ => c) C' s'
    /\ (forall cx cy, C' cx cy -> between x0 x1 cx /\ between y0 y1 cy)
    /\ (forall cx cy, C' cx cy \/ ~ C' cx cy)
    /\ C' x0 y0 /\ C' x1 y1.
Proof.
  assert (Hb0 := proj1 (isInBounds_spec _ _ _) Hstart).
  assert (Hb1 := proj1 (isInBounds_spec _ _ _) Hend).
  assert (Hwmax : Surface.width s0 <= CInt.INT_MAX
                  /\ Surface.height s0 <= CInt.INT_MAX).
  { destruct Hwf0 as (Hw0 & Hh0 & Hlen0 & Hmax0).
    unfold CInt.INT_MAX in *. nia. }
  assert (Hbox : forall px py, between x0 x1 px -> between y0 y1 py ->
            (0 <= px < Surface.width s0 /\ 0 <= py < Surface.height s0)).
  { unfold between. lia. }
  clear Hwf0 Hstart Hend.
  induction k as [|k IH]; intros fuel nx ny s C Hk Hfuel Hnx Hny Hp HC HD Hfirst;
    (destruct fuel as [|fuel]; [lia|]); simpl.
  all: assert (Hbx : between x0 x1 (x0 + sx * nx))
         by (rewrite Hx1; apply between_step; assumption).
  all: assert (Hby : between y0 y1 (y0 + sy * ny))
         by (rewrite Hy1; apply between_step; assumption).
  all: assert (Hin : Surface.isInBounds s0 (x0 + sx * nx) (y0 + sy * ny) = true)
         by (apply isInBounds_spec, Hbox; assumption).
  all: destruct (painted_step a s0 s (fun _ _ => c) C _ _ Hin Hp)
         as (s1 & Hdraw & Hp1); rewrite Hdraw; simpl.
  all: assert (HC1 : forall cx cy,
                 C cx cy \/ cx = x0 + sx * nx /\ cy = y0 + sy * ny ->
                 between x0 x1 cx /\ between y0 y1 cy)
         by (intros cx cy [H | (-> & ->)]; [apply HC, H | tauto]).
  all: assert (HD1 : forall cx cy,
                 (C cx cy \/ cx = x0 + sx * nx /\ cy = y0 + sy * ny)
                 \/ ~ (C cx cy \/ cx = x0 + sx * nx /\ cy = y0 + sy * ny))
         by (intros cx cy; destruct (HD cx cy);
             destruct (Z.eq_dec cx (x0 + sx * nx));
             destruct (Z.eq_dec cy (y0 + sy * ny)); tauto).
  all: assert (Hfirst1 : C x0 y0 \/ x0 = x0 + sx * nx /\ y0 = y0 + sy * ny)
         by (destruct Hfirst as [(-> & ->) | H]; [right; lia | left; exact H]).
  - (* no iteration left to account for: this is the end point *)
    assert (nx = dx /\ ny = dy) as (-> & ->) by lia.
    rewrite <- Hx1, <- Hy1, !Z.eqb_refl. simpl.
    eexists s1, _. apply conj; [reflexivity|].
    refine (conj Hp1 (conj HC1 (conj HD1 (conj Hfirst1 _)))). right. lia.
  - destruct ((x0 + sx * nx =? x1) && (y0 + sy * ny =? y1)) eqn:Hat.
    + apply andb_true_iff in Hat as (Ex & Ey). apply Z.eqb_eq in Ex, Ey.
      eexists s1, _. apply conj; [reflexivity|].
      refine (conj Hp1 (conj HC1 (conj HD1 (conj Hfirst1 _)))). right. lia.
    + assert (Hnot : ~ (nx = dx /\ ny = dy)).
      { intros (-> & ->). rewrite <- Hx1, <- Hy1, !Z.eqb_refl in Hat.
        discriminate Hat. }
      pose proof (line_error_bound dx dy nx ny Hnx Hny) as (Herr & Hdxs & Hdys).
      pose proof (line_step_x dx dy nx ny Hnx Hny Hnot) as Hxs.
      pose proof (line_step_y dx dy nx ny Hnx Hny Hnot) as Hys.
      assert (Hring :
        (1 + (ny + 1)) * dx - (1 + (nx + 1)) * dy
          = (1 + ny) * dx - (1 + nx) * dy - dy + dx
        /\ (1 + ny) * dx - (1 + (nx + 1)) * dy
          = (1 + ny) * dx - (1 + nx) * dy - dy
        /\ (1 + (ny + 1)) * dx - (1 + nx) * dy
          = (1 + ny) * dx - (1 + nx) * dy + dx) by (repeat apply conj; ring).
      destruct Hring as (Rxy & Rx & Ry).
      set (err := (1 + ny) * dx - (1 + nx) * dy) in *.
      set (B := (dx + 1) * (dy + 1)) in *.
      unfold CInt.mul, Math.sub, CInt.add.
      rewrite (to_int_small (2 * err))
        by (unfold CInt.in_int, CInt.INT_MIN, CInt.INT_MAX in *; lia).
      rewrite (to_int_small (- dy))
        by (unfold CInt.in_int, CInt.INT_MIN, CInt.INT_MAX in *; lia).
      destruct (Z.ltb_spec (- dy) (2 * err)) as [Stepx | Stayx].
      * specialize (Hxs Stepx).
        assert (Hbx' : between x0 x1 (x0 + sx * (nx + 1)))
          by (rewrite Hx1; apply between_step; [assumption | lia]).
        replace (x0 + sx * nx + sx) with (x0 + sx * (nx + 1)) by ring.
        rewrite (to_int_small (err - dy))
          by (unfold CInt.in_int, CInt.INT_MIN, CInt.INT_MAX in *; lia).
        rewrite (to_int_small (x0 + sx * (nx + 1)))
          by (pose proof (Hbox _ _ Hbx' Hby);
              unfold CInt.in_int, CInt.INT_MIN, CInt.INT_MAX in *; lia).
        destruct (Z.ltb_spec (2 * err) dx) as [Stepy | Stayy].
        -- specialize (Hys Stepy).
           assert (Hby' : between y0 y1 (y0 + sy * (ny + 1)))
             by (rewrite Hy1; apply between_step; [assumption | lia]).
           replace (y0 + sy * ny + sy) with (y0 + sy * (ny + 1)) by ring.
           rewrite (to_int_small (err - dy + dx))
             by (unfold CInt.in_int, CInt.INT_MIN, CInt.INT_MAX in *; lia).
           rewrite (to_int_small (y0 + sy * (ny + 1)))
             by (pose proof (Hbox _ _ Hbx Hby');
                 unfold CInt.in_int, CInt.INT_MIN, CInt.INT_MAX in *; lia).
           rewrite <- Rxy.
           refine (IH fuel (nx + 1) (ny + 1) s1 _ _ _ _ _ Hp1 HC1 HD1 (or_intror Hfirst1));
             lia.
        -- rewrite <- Rx.
           refine (IH fuel (nx + 1) ny s1 _ _ _ _ _ Hp1 HC1 HD1 (or_intror Hfirst1));
             lia.
      * destruct (Z.ltb_spec (2 * err) dx) as [Stepy | Stayy]; [|lia].
        specialize (Hys Stepy).
        assert (Hby' : between y0 y1 (y0 + sy * (ny + 1)))
          by (rewrite Hy1; apply between_step; [assumption | lia]).
        replace (y0 + sy * ny + sy) with (y0 + sy * (ny + 1)) by ring.
        rewrite (to_int_small (err + dx))
          by (unfold CInt.in_int, CInt.INT_MIN, CInt.INT_MAX in *; lia).
        rewrite (to_int_small (y0 + sy * (ny + 1)))
          by (pose proof (Hbox _ _ Hbx Hby');
              unfold CInt.in_int, CInt.INT_MIN, CInt.INT_MAX in *; lia).
        rewrite <- Ry.
        refine (IH fuel nx (ny + 1) s1 _ _ _ _ _ Hp1 HC1 HD1 (or_intror Hfirst1));
             lia.
Qed.

End Bresenham.

(** X26.  [drawLine] of the square example between two points of a
    well-formed surface (with [4 (dx + 1) (dy + 1)] within [int], so
    that the error term cannot overflow) leaves its loop after at most
    [dx + dy + 1] iterations without drawing out of bounds: both end
    points hold the colour, and every other pixel is either untouched
    or holds the colour and lies in the rectangle of the end points. *)
Theorem drawLine_draws_within_box (a : App.t) (s : Surface.t)
    (x0 y0 x1 y1 r g b : Z) (fuel : nat) :
  App.surface a = Some s -> wf_surface s ->
  Surface.isInBounds s x0 y0 = true ->
  Surface.isInBounds s x1 y1 = true ->
  4 * ((Z.abs (x1 - x0) + 1) * (Z.abs (y1 - y0) + 1)) <= CInt.INT_MAX ->
  Z.abs (x1 - x0) + Z.abs (y1 - y0) < Z.of_nat fuel ->
  exists s',
    PixelSquare.drawLine fuel a x0 y0 x1 y1 r g b
    = Ok (Some (App.with_surface (Some s') a))
    /\ line_drawn s x0 y0 x1 y1 (Color.Color r g b 255) s'.
Proof.
  intros Hs Hwf Hb0 Hb1 Hsmall Hfuel.
  assert (Ha : a = App.with_surface (Some s) a).
  { destruct a; simpl in *. subst. reflexivity. }
  assert (Hi0 := proj1 (isInBounds_spec _ _ _) Hb0).
  assert (Hi1 := proj1 (isInBounds_spec _ _ _) Hb1).
  assert (Hwmax : Surface.width s <= CInt.INT_MAX
                  /\ Surface.height s <= CInt.INT_MAX).
  { destruct Hwf as (Hw0 & Hh0 & Hlen0 & Hmax0).
    unfold CInt.INT_MAX in *. nia. }
  set (c := Color.Color r g b 255).
  set (dx := Z.abs (x1 - x0)) in *. set (dy := Z.abs (y1 - y0)) in *.
  assert (Hdx : 0 <= dx <= CInt.INT_MAX)
    by (unfold dx, CInt.INT_MAX in *; lia).
  assert (Hdy : 0 <= dy <= CInt.INT_MAX)
    by (unfold dy, CInt.INT_MAX in *; lia).
  unfold PixelSquare.drawLine, Math.abs, Math.sub.
  rewrite (to_int_small (x1 - x0)), (to_int_small (y1 - y0))
    by (unfold CInt.in_int, CInt.INT_MIN, CInt.INT_MAX in *; lia).
  fold dx dy.
  rewrite (to_int_small dx), (to_int_small dy), (to_int_small (dx - dy))
    by (unfold CInt.in_int, CInt.INT_MIN, CInt.INT_MAX in *; lia).
  fold c.
  set (sx := if x0 <? x1 then 1 else -1).
  set (sy := if y0 <? y1 then 1 else -1).
  assert (Hsx : (sx = 1 \/ sx = -1) /\ x1 = x0 + sx * dx)
    by (unfold sx, dx; destruct (Z.ltb_spec x0 x1); lia).
  assert (Hsy : (sy = 1 \/ sy = -1) /\ y1 = y0 + sy * dy)
    by (unfold sy, dy; destruct (Z.ltb_spec y0 y1); lia).
  assert (Hp0 : painted s (fun _ _ => c) (fun _ _ => False) s).
  { refine (conj Hwf (conj eq_refl (conj eq_refl _))).
    intros x y _. apply conj; [intros [] | reflexivity]. }
  destruct (drawLine_loop_finishes a s x0 y0 x1 y1 dx dy sx sy c Hwf Hb0 Hb1
              (proj1 Hsx) (proj1 Hsy) (proj2 Hsx) (proj2 Hsy) Hsmall
              (Z.to_nat (dx + dy)) fuel 0 0 s (fun _ _ => False)
              ltac:(lia) ltac:(lia) ltac:(lia) ltac:(lia) Hp0
              (fun _ _ (H : False) => False_ind _ H)
              (fun _ _ => or_intror (fun H : False => H))
              (or_introl (conj eq_refl eq_refl)))
    as (s' & C' & Hloop & (Hwf' & Hw & Hh & Hpix) & Hbox & Hdec & Hc0 & Hc1).
  exists s'. apply conj.
  - rewrite <- Hloop, <- Ha. f_equal; ring.
  - refine (conj Hwf' (conj Hw (conj Hh (conj _ (conj _ _))))).
    + apply (Hpix x0 y0 Hb0), Hc0.
    + apply (Hpix x1 y1 Hb1), Hc1.
    + intros x y Hb. destruct (Hdec x y) as [Hc | Hc].
      * right. apply conj; [apply (Hpix x y Hb), Hc | apply Hbox, Hc].
      * left. apply (Hpix x y Hb), Hc.
Qed.

Lemma drawLine_draws_within_box_witness :
  exists s',
    PixelSquare.drawLine 3
      (App.app (state_of (App.start platform_ok app_draws App.App gl_fresh)))
      0 0 1 1 255 0 0
    = Ok (Some (App.with_surface (Some s')
            (App.app (state_of (App.start platform_ok app_draws App.App
                                          gl_fresh)))))
    /\ pixel_at s' 1 1 = Some (Color.toUInt32 (Color.Color 255 0 0 255)).
Proof.
  destruct (drawLine_draws_within_box
              (App.app (state_of (App.start platform_ok app_draws App.App
                                            gl_fresh)))
              (Surface.mk 2 2 (replicate 4 (Color.toUInt32 Color.Black)))
              0 0 1 1 255 0 0 3)
    as (s' & Hline & _ & _ & _ & _ & Hend & _).
  - vm_compute. reflexivity.
  - unfold wf_surface, CInt.INT_MAX; simpl; lia.
  - reflexivity.
  - reflexivity.
  - unfold CInt.INT_MAX; simpl; lia.
  - simpl; lia.
  - exists s'. exact (conj Hline Hend).
Defined.
